(** * Shared state, virtual file store, TODO store and task delegation

    A shallow embedding of [deep_agents_libs] ([state.py], [file_tools.py],
    [todo_tools.py], [task_tool.py], [research_tools.py]) and the properties
    its specification states about it, followed by further properties read
    off the code.

    Conventions of the embedding:
    - a Python [str] is the list of its Unicode code points ([str]);
      [len], slicing, [splitlines] and [strip] count code points;
    - a Python [int] is a [Z];
    - the [files] dictionary is a finite map ([gmap str str]); the model keeps
      what [in], [d[k]], [d[k] = v], [{**a, **b}] and [==] observe, and leaves
      out the insertion order of the keys;
    - the [agents] dictionary of the task tool is an insertion-ordered
      association list, because its keys are printed in order;
    - a call that can raise returns an [outcome];
    - an in-place mutation of the injected state dictionary is returned as
      the state after the call;
    - what lies outside the library (the language model, the search client,
      the network, the clock, random identifiers) is a parameter. *)

From Stdlib Require Import ZArith String Ascii DecimalString Lia.
From stdpp Require Import base option list gmap.

Local Open Scope Z_scope.

(** ** Python values *)

Module Py.

(** A character is a Unicode code point, a string a list of them. *)
Abbreviation char := N (only parsing).
Abbreviation str := (list N) (only parsing).

(** An ASCII literal of the source, as code points. *)
Definition lit (s : string) : str :=
  map N_of_ascii (list_ascii_of_string s).

Definition TAB : char := 9%N.
Definition LF : char := 10%N.
Definition CR : char := 13%N.

(** [str(n)] for an [int]. *)
Definition str_of_int (n : Z) : str :=
  lit (NilZero.string_of_int (Z.to_int n)).

(** [" " * k] for [k : nat]. *)
Definition spaces (k : nat) : str := repeat 32%N k.

(** [f"{n:6d}"]: the decimal numeral, right-aligned in a field of at
    least six characters, filled with spaces on the left. *)
Definition format_6d (n : Z) : str :=
  let digits := str_of_int n in
  spaces (6 - length digits) ++ digits.

(** [sep.join(parts)]. *)
Fixpoint join (sep : str) (parts : list str) : str :=
  match parts with
  | [] => []
  | [p] => p
  | p :: rest => p ++ sep ++ join sep rest
  end.

(** The line boundaries of [str.splitlines]:
    LF, VT, FF, CR, FS, GS, RS, NEL, LINE SEPARATOR, PARAGRAPH SEPARATOR. *)
Definition is_linebreak (c : char) : bool :=
  bool_decide (c ∈ [10; 11; 12; 13; 28; 29; 30; 133; 8232; 8233]%N).

(** [s.splitlines()], with [cur] the characters of the line being read.
    CR LF is one boundary; a final boundary opens no further line. *)
Fixpoint splitlines_from (cur : str) (s : str) : list str :=
  match s with
  | [] => match cur with [] => [] | _ => [cur] end
  | c :: rest =>
      if is_linebreak c then
        cur :: match rest with
               | c2 :: rest2 =>
                   if bool_decide (c = CR) && bool_decide (c2 = LF)
                   then splitlines_from [] rest2
                   else splitlines_from [] rest
               | [] => []
               end
      else splitlines_from (cur ++ [c]) rest
  end.

Definition splitlines (s : str) : list str := splitlines_from [] s.

(** [str.isspace] on one character: the Unicode white space. *)
Definition is_space (c : char) : bool :=
  bool_decide (c ∈ [9; 10; 11; 12; 13; 28; 29; 30; 31; 32; 133; 160; 5760;
                    8192; 8193; 8194; 8195; 8196; 8197; 8198; 8199; 8200;
                    8201; 8202; 8232; 8233; 8239; 8287; 12288]%N).

Fixpoint lstrip (s : str) : str :=
  match s with
  | c :: rest => if is_space c then lstrip rest else s
  | [] => []
  end.

(** [s.strip()]. *)
Definition strip (s : str) : str := rev (lstrip (rev (lstrip s))).

(** What a call can do: return a value or raise. *)
Inductive exn := IndexError | KeyError | AgentFault (payload : str).

Inductive outcome (A : Type) :=
| Return (a : A)
| Raise (e : exn).
Arguments Return {A} a.
Arguments Raise {A} e.

#[export] Instance outcome_ret : MRet outcome := @Return.

#[export] Instance outcome_bind : MBind outcome := fun A B k m =>
  match m with
  | Return a => k a
  | Raise e => Raise e
  end.

(** [l[i]] on a list: a negative index counts from the end, anything
    outside [-len(l) <= i < len(l)] raises [IndexError]. *)
Definition getitem {A} (l : list A) (i : Z) : outcome A :=
  let n := Z.of_nat (length l) in
  let j := if i <? 0 then n + i else i in
  if (0 <=? j) && (j <? n)
  then match l !! Z.to_nat j with
       | Some x => Return x
       | None => Raise IndexError
       end
  else Raise IndexError.

(** [range(start, stop)]. *)
Definition range (start stop : Z) : list Z := seqZ start (stop - start).

End Py.

Export Py.

(** ** state.py *)

(** [Todo]: the status is a string at run time; the three literals are the
    ones the type annotation lists. *)
Record Todo := mkTodo { todo_content : str; todo_status : str }.

(** A message of the conversation: a role, a text content and, for a tool
    response, the id of the call it answers. *)
Record Message := mkMessage {
  msg_role : str;
  msg_content : str;
  msg_tool_call_id : option str
}.

(** [{"role": "user", "content": c}] *)
Definition user_turn (c : str) : Message := mkMessage (lit "user") c None.

(** [ToolMessage(c, tool_call_id=id)] *)
Definition ToolMessage (c id : str) : Message := mkMessage (lit "tool") c (Some id).

(** [DeepAgentState]: [messages] comes from [AgentState]; [todos] and
    [files] are [NotRequired], [None] stands for a missing key. *)
Record DeepAgentState := mkState {
  messages : list Message;
  todos : option (list Todo);
  files : option (gmap str str)
}.

(** [file_reducer(left, right)], [None] being Python's [None]. *)
Definition file_reducer (left right : option (gmap str str)) : option (gmap str str) :=
  match left with
  | None => right
  | Some l =>
      match right with
      | None => left
      | Some r => Some (r ∪ l) (* {**left, **right} *)
      end
  end.

(** The [update] of a [Command]: the keys it carries. *)
Record Update := mkUpdate {
  u_files : option (gmap str str);
  u_todos : option (list Todo);
  u_messages : option (list Message)
}.

(** Modelled from the spec: the reducer of the [messages] channel comes with
    [AgentState] of the graph library, which is not part of the repository.
    The specification has [messages] append-only and has a delegation grow
    them by the one message of its delta: the messages of an update go
    after the ones already there. *)
Definition add_messages (left right : list Message) : list Message := left ++ right.

(** Applying an update to a state, channel by channel, as the annotations
    of [DeepAgentState] declare it: [files] through [file_reducer],
    [messages] through [add_messages], [todos] overwritten; a key the
    update does not carry is left alone. *)
Definition apply_update (s : DeepAgentState) (u : Update) : DeepAgentState :=
  {| messages := match u_messages u with
                 | Some ms => add_messages (messages s) ms
                 | None => messages s
                 end;
     todos := match u_todos u with
              | Some t => Some t
              | None => todos s
              end;
     files := match u_files u with
              | Some f => file_reducer (files s) (Some f)
              | None => files s
              end |}.

(** Pairwise, left-to-right application of the merge rule over a sequence
    of updates. *)
Definition merge_all (base : option (gmap str str))
    (updates : list (option (gmap str str))) : option (gmap str str) :=
  foldl file_reducer base updates.

(** ** file_tools.py *)

(** [ls(state)]: the keys of [files]. The listing comes in the order in
    which the finite map enumerates its keys; Python lists them in insertion
    order, which the map does not record. *)
Definition ls (state : DeepAgentState) : list str :=
  (map_to_list (default ∅ (files state))).*1.

(** One line of the listing of [read_file]: [f"{i + 1:6d}\t{line_content}"],
    with [line_content = line[:2000]]. *)
Definition numbered_line (i : Z) (line : str) : str :=
  format_6d (i + 1) ++ [TAB] ++ take 2000 line.

(** The [for] loop of [read_file]: [idxs] is what is left of
    [range(start_idx, end_idx)], [result_lines] the lines appended so far. *)
Fixpoint read_file_loop (lines : list str) (idxs : list Z) (result_lines : list str)
    : outcome (list str) :=
  match idxs with
  | [] => Return result_lines
  | i :: rest =>
      line ← getitem lines i;
      read_file_loop lines rest (result_lines ++ [numbered_line i line])
  end.

Definition not_found_error (file_path : str) : str :=
  lit "Error: File '" ++ file_path ++ lit "' not found".

Definition empty_file_notice : str :=
  lit "System reminder: File exists but has empty contents".

Definition offset_error (offset : Z) (line_count : nat) : str :=
  lit "Error: Line offset " ++ str_of_int offset ++ lit " exceeds file length ("
    ++ str_of_int (Z.of_nat line_count) ++ lit " lines)".

(** [read_file(file_path, state, offset, limit)]. *)
Definition read_file (file_path : str) (state : DeepAgentState) (offset limit : Z)
    : outcome str :=
  let files := default ∅ (files state) in
  match files !! file_path with
  | None => Return (not_found_error file_path)
  | Some content =>
      match content with
      | [] => Return empty_file_notice
      | _ =>
          let lines := splitlines content in
          let start_idx := offset in
          let end_idx := Z.min (start_idx + limit) (Z.of_nat (length lines)) in
          if start_idx >=? Z.of_nat (length lines)
          then Return (offset_error offset (length lines))
          else
            result_lines ← read_file_loop lines (range start_idx end_idx) [];
            Return (join [LF] result_lines)
      end
  end.

(** Calls to the logger: the level of the call and its message. Whether
    a call leaves a record depends on the level configured; at the level
    [settings.py] defaults to, INFO, a [logger.debug] call leaves none. Of
    the logging calls of the library only those of [write_file] are kept:
    the words "created" and "updated" appear in one of them. *)
Inductive LogLevel := DEBUG | INFO | WARNING | ERROR.

Record LogRecord := mkLog { log_level : LogLevel; log_message : str }.

(** What [write_file] does: the injected state after the call (the
    dictionary found under [files] is updated in place; a missing key
    stays missing, the default [{}] being a fresh object), the calls it
    makes to the logger and the command returned. *)
Record WriteResult := mkWriteResult {
  wr_state : DeepAgentState;
  wr_log : list LogRecord;
  wr_command : Update
}.

Definition write_file_log (file_path : str) (existing : bool) : str :=
  lit "File " ++ file_path ++ lit " "
    ++ (if existing then lit "updated" else lit "created")
    ++ lit " in virtual filesystem".

(** [write_file(file_path, content, state, tool_call_id)]. *)
Definition write_file (file_path content : str) (state : DeepAgentState)
    (tool_call_id : str) : WriteResult :=
  let files0 := default ∅ (files state) in
  let existing := bool_decide (is_Some (files0 !! file_path)) in
  let files1 := <[file_path := content]> files0 in
  {| wr_state := match files state with
                 | Some _ => mkState (messages state) (todos state) (Some files1)
                 | None => state
                 end;
     wr_log := [ mkLog INFO (lit "write_file called for path: " ++ file_path);
                 mkLog DEBUG (write_file_log file_path existing) ];
     wr_command :=
       {| u_files := Some files1;
          u_todos := None;
          u_messages := Some [ToolMessage (lit "Updated file " ++ file_path) tool_call_id] |} |}.

(** ** todo_tools.py *)

(** [write_todos(todos, tool_call_id)]; [repr_todos] is [str] on the list
    of todos, as the interpreter prints it. *)
Definition write_todos (repr_todos : list Todo -> str) (todos : list Todo)
    (tool_call_id : str) : Update :=
  {| u_files := None;
     u_todos := Some todos;
     u_messages :=
       Some [ToolMessage (lit "Updated todo list to " ++ repr_todos todos) tool_call_id] |}.

(** The dictionary [status_emoji] of [read_todos]:
    hourglass U+23F3, arrows U+1F504, check mark U+2705. *)
Definition status_emoji : gmap str str :=
  {[ lit "pending" := [9203%N];
     lit "in_progress" := [128260%N];
     lit "completed" := [9989%N] ]}.

(** The default of [status_emoji.get]: question mark U+2753. *)
Definition unknown_emoji : str := [10067%N].

(** [f"{i}. {emoji} {todo['content']} ({todo['status']})"], without the
    newline that ends it. *)
Definition todo_entry (i : Z) (todo : Todo) : str :=
  let emoji := default unknown_emoji (status_emoji !! todo_status todo) in
  str_of_int i ++ lit ". " ++ emoji ++ lit " " ++ todo_content todo
    ++ lit " (" ++ todo_status todo ++ lit ")".

(** The [for] loop of [read_todos] over [enumerate(todos, i)]. *)
Fixpoint read_todos_loop (i : Z) (todos : list Todo) (result : str) : str :=
  match todos with
  | [] => result
  | todo :: rest => read_todos_loop (i + 1) rest (result ++ todo_entry i todo ++ [LF])
  end.

Definition no_todos_message : str := lit "No todos currently in the list.".

Definition todo_header : str := lit "Current TODO List:".

(** [read_todos(state, tool_call_id)]. *)
Definition read_todos (state : DeepAgentState) (tool_call_id : str) : str :=
  let todos := default [] (todos state) in
  match todos with
  | [] => no_todos_message
  | _ => strip (read_todos_loop 1 todos (todo_header ++ [LF]))
  end.

(** ** task_tool.py *)

(** [SubAgent]; [sa_tools] is [NotRequired]. *)
Record SubAgent := mkSubAgent {
  sa_name : str;
  sa_description : str;
  sa_prompt : str;
  sa_tools : option (list str)
}.

(** An insertion-ordered dictionary with string keys. *)
Definition pydict (V : Type) := list (str * V).

Fixpoint dict_get {V} (d : pydict V) (k : str) : option V :=
  match d with
  | [] => None
  | (k', v) :: d' => if decide (k = k') then Some v else dict_get d' k
  end.

(** [d[k] = v]: a key already there keeps its place. *)
Fixpoint dict_set {V} (d : pydict V) (k : str) (v : V) : pydict V :=
  match d with
  | [] => [(k, v)]
  | (k', v') :: d' =>
      if decide (k = k') then (k', v) :: d' else (k', v') :: dict_set d' k v
  end.

Definition dict_keys {V} (d : pydict V) : list str := d.*1.

(** [needle in hay] on strings. *)
Definition occurs_in (needle hay : str) : Prop :=
  ∃ before after, hay = before ++ needle ++ after.

(** A compiled sub-agent, as its [invoke]: from the state it is given to
    the state it ends in, or a fault. *)
Definition Agent := DeepAgentState -> outcome DeepAgentState.

(** The result of the [task] tool: a text or a command. *)
Inductive ToolResult :=
| Text (s : str)
| Cmd (u : Update).

Section TaskTool.

(** [repr] on a [str], as the interpreter provides it. *)
Variable repr_str : str -> str.

(** The tools and the constructor of agents of the graph library. *)
Variable Tool : Type.
Variable tool_name : Tool -> str.
Variable create_react_agent : str -> list Tool -> Agent.

(** [str(l)] for a list of strings. *)
Definition str_of_list (l : list str) : str :=
  lit "[" ++ join (lit ", ") (repr_str <$> l) ++ lit "]".

(** [f"`{k}`"] *)
Definition backquoted (k : str) : str := lit "`" ++ k ++ lit "`".

Definition unknown_agent_error (agents : pydict Agent) (subagent_type : str) : str :=
  let allowed := backquoted <$> dict_keys agents in
  lit "Error: invoked agent of type " ++ subagent_type
    ++ lit ", the only allowed types are " ++ str_of_list allowed.

(** The state the sub-agent is invoked on: the injected state after
    [state["messages"] = [{"role": "user", "content": description}]]. *)
Definition isolated (state : DeepAgentState) (description : str) : DeepAgentState :=
  mkState [user_turn description] (todos state) (files state).

(** [task(description, subagent_type, state, tool_call_id)], closed over
    [agents]: the injected state after the call, and what the call
    returns or raises. *)
Definition task (agents : pydict Agent) (description subagent_type : str)
    (state : DeepAgentState) (tool_call_id : str)
    : DeepAgentState * outcome ToolResult :=
  match dict_get agents subagent_type with
  | None => (state, Return (Text (unknown_agent_error agents subagent_type)))
  | Some sub_agent =>
      let state' := isolated state description in
      (state',
       result ← sub_agent state';
       last ← getitem (messages result) (-1);
       Return (Cmd {| u_files := Some (default ∅ (files result));
                      u_todos := None;
                      u_messages := Some [ToolMessage (msg_content last) tool_call_id] |}))
  end.

(** The loop of [_create_task_tool] over [tools]. *)
Definition tools_by_name (tools : list Tool) : pydict Tool :=
  foldl (fun d tool_ => dict_set d (tool_name tool_) tool_) [] tools.

(** [[tools_by_name[t] for t in names]] *)
Fixpoint lookup_tools (by_name : pydict Tool) (names : list str) : outcome (list Tool) :=
  match names with
  | [] => Return []
  | t :: rest =>
      match dict_get by_name t with
      | None => Raise KeyError
      | Some tool_ => found ← lookup_tools by_name rest; Return (tool_ :: found)
      end
  end.

(** The loop of [_create_task_tool] over [subagents]. *)
Fixpoint create_agents (tools : list Tool) (subagents : list SubAgent)
    (agents : pydict Agent) : outcome (pydict Agent) :=
  match subagents with
  | [] => Return agents
  | _agent :: rest =>
      _tools ← match sa_tools _agent with
               | Some names => lookup_tools (tools_by_name tools) names
               | None => Return tools
               end;
      create_agents tools rest
        (dict_set agents (sa_name _agent) (create_react_agent (sa_prompt _agent) _tools))
  end.

(** [_create_task_tool(tools, subagents, model, state_schema)]: the
    [task] tool over the agents it has built. *)
Definition _create_task_tool (tools : list Tool) (subagents : list SubAgent)
    : outcome (str -> str -> DeepAgentState -> str -> DeepAgentState * outcome ToolResult) :=
  agents ← create_agents tools subagents [];
  Return (task agents).

End TaskTool.

Arguments tools_by_name {Tool} tool_name tools.
Arguments lookup_tools {Tool} by_name names.
Arguments create_agents {Tool} tool_name create_react_agent tools subagents agents.
Arguments _create_task_tool repr_str {Tool} tool_name create_react_agent tools subagents.

(** ** research_tools.py *)

(** [Summary]: what the summarization model is asked to return. *)
Record Summary := mkSummary { filename : str; summary : str }.

(** What [httpx_client.get] returns, as far as the code looks at it. *)
Record Response := mkResponse { status_code : Z; text : str }.

(** One result of a Tavily search, a dictionary: [None] stands for a
    missing key; the value under ["raw_content"] can be Python's [None],
    the inner [None]. *)
Record TavilyResult := mkTavilyResult {
  r_url : option str;
  r_title : option str;
  r_raw_content : option (option str);
  r_content : option str
}.

(** One dictionary of the list [process_search_results] returns. *)
Record ProcessedResult := mkProcessed {
  p_url : str;
  p_title : str;
  p_summary : str;
  p_filename : str;
  p_raw_content : option str
}.

(** [d[key]] on a dictionary whose key may be missing. *)
Definition dict_item {A} (value : option A) : outcome A :=
  match value with
  | Some v => Return v
  | None => Raise KeyError
  end.

(** [p.rfind(c)], scanning [p] from index [i]: the last index of [c], or
    [found] when there is none. *)
Fixpoint rfind_from (c : char) (p : str) (i : Z) (found : Z) : Z :=
  match p with
  | [] => found
  | x :: rest => rfind_from c rest (i + 1) (if decide (x = c) then i else found)
  end.

Definition rfind (p : str) (c : char) : Z := rfind_from c p 0 (-1).

(** The [while] loop of [genericpath._splitext]: split at the last dot as
    soon as a character of the file name before it is not a dot. *)
Fixpoint splitext_scan (p : str) (extsep : char) (dotIndex : Z) (idxs : list Z)
    : str * str :=
  match idxs with
  | [] => (p, [])
  | filenameIndex :: rest =>
      if decide (p !! Z.to_nat filenameIndex = Some extsep)
      then splitext_scan p extsep dotIndex rest
      else (take (Z.to_nat dotIndex) p, drop (Z.to_nat dotIndex) p)
  end.

(** [genericpath._splitext(p, sep, altsep, extsep)]. *)
Definition _splitext (p : str) (sep : char) (altsep : option char) (extsep : char)
    : str * str :=
  let sepIndex :=
    match altsep with
    | Some alt => Z.max (rfind p sep) (rfind p alt)
    | None => rfind p sep
    end in
  let dotIndex := rfind p extsep in
  if dotIndex >? sepIndex
  then splitext_scan p extsep dotIndex (range (sepIndex + 1) dotIndex)
  else (p, []).

(** The fallback of [summarize_webpage_content]: the first 1000 characters
    and an ellipsis, or the whole of a shorter content. *)
Definition basic_summary (webpage_content : str) : Summary :=
  mkSummary (lit "search_result.md")
    (if Z.of_nat (length webpage_content) >? 1000
     then take 1000 webpage_content ++ lit "..."
     else webpage_content).

(** [summarize_webpage_content(webpage_content)]; [invoke_model] stands for
    the body of the [try]: the prompt formatted with the content and the
    date, handed to the structured model. *)
Definition summarize_webpage_content (invoke_model : str -> outcome Summary)
    (webpage_content : str) : Summary :=
  match invoke_model webpage_content with
  | Return summary_and_filename => summary_and_filename
  | Raise _ => basic_summary webpage_content
  end.

Definition url_error_text : str := lit "Error reading URL; try another search.".

(** [think_tool(reflection)]. *)
Definition think_tool (reflection : str) : str :=
  lit "Reflection recorded: " ++ reflection.

Section ResearchTools.

(** The path flavour of the platform: [os.sep] and [os.altsep]. *)
Variable os_sep : char.
Variable os_altsep : option char.

(** The world outside: the search client, the [i]-th page fetched, the
    conversion to markdown, the model called on the [i]-th page, the
    identifier drawn for the [i]-th result and the date at the [i]-th
    file. *)
Variable tavily_client_search : str -> Z -> bool -> str -> outcome (option (list TavilyResult)).
Variable httpx_get : nat -> str -> outcome Response.
Variable markdownify : str -> str.
Variable invoke_summarizer : nat -> str -> outcome Summary.
Variable uuid4_uid : nat -> str.
Variable get_today_str : nat -> str.

(** [os.path.splitext(p)]. *)
Definition splitext (p : str) : str * str := _splitext p os_sep os_altsep 46%N.

(** [run_tavily_search(search_query, max_results, topic, include_raw_content)]. *)
Definition run_tavily_search (search_query : str) (max_results : Z) (topic : str)
    (include_raw_content : bool) : outcome (option (list TavilyResult)) :=
  tavily_client_search search_query max_results include_raw_content topic.

(** The fetch of one result in [process_search_results]: the raw content
    and the summary, from the page when it answers with status 200, from
    the search result otherwise. *)
Definition fetch_and_summarize (i : nat) (result : TavilyResult) (url : str)
    : option str * Summary :=
  let response :=
    match httpx_get i url with
    | Return r => Some r
    | Raise _ => None
    end in
  match response with
  | Some r =>
      if status_code r =? 200
      then let raw_content := markdownify (text r) in
           (Some raw_content, summarize_webpage_content (invoke_summarizer i) raw_content)
      else (default (Some []) (r_raw_content result),
            mkSummary (lit "URL_error.md") (default url_error_text (r_content result)))
  | None =>
      (default (Some []) (r_raw_content result),
       mkSummary (lit "URL_error.md") (default url_error_text (r_content result)))
  end.

(** [f"{name}_{uid}{ext}"] with [name, ext = os.path.splitext(filename)]. *)
Definition with_uid (filename uid : str) : str :=
  let '(name, ext) := splitext filename in
  name ++ lit "_" ++ uid ++ ext.

(** The [for] loop of [process_search_results], [i] counting the results
    done. *)
Fixpoint process_loop (i : nat) (results : list TavilyResult)
    (processed_results : list ProcessedResult) : outcome (list ProcessedResult) :=
  match results with
  | [] => Return processed_results
  | result :: rest =>
      url ← dict_item (r_url result);
      let '(raw_content, summary_obj) := fetch_and_summarize i result url in
      let filename' := with_uid (filename summary_obj) (uuid4_uid i) in
      url' ← dict_item (r_url result);
      title ← dict_item (r_title result);
      process_loop (S i) rest
        (processed_results
           ++ [ mkProcessed url' title (summary summary_obj) filename' raw_content ])
  end.

(** [process_search_results(results)]. *)
Definition process_search_results (results : option (list TavilyResult))
    : outcome (list ProcessedResult) :=
  process_loop 0 (default [] results) [].

(** The text written to the file of one result. *)
Definition file_content (query : str) (i : nat) (result : ProcessedResult) : str :=
  lit "# Search Result: " ++ p_title result ++ [LF]
    ++ [LF]
    ++ lit "**URL:** " ++ p_url result ++ [LF]
    ++ lit "**Query:** " ++ query ++ [LF]
    ++ lit "**Date:** " ++ get_today_str i ++ [LF]
    ++ [LF]
    ++ lit "## Summary" ++ [LF]
    ++ p_summary result ++ [LF]
    ++ [LF]
    ++ lit "## Raw Content" ++ [LF]
    ++ match p_raw_content result with
       | Some (c :: raw) => c :: raw
       | _ => lit "No raw content available"
       end ++ [LF].

(** The [for] loop of [tavily_search] over [enumerate(processed_results)]:
    the files, the names saved and the summary lines so far. *)
Fixpoint save_loop (query : str) (i : nat) (processed_results : list ProcessedResult)
    (files : gmap str str) (saved_files summaries : list str)
    : gmap str str * list str * list str :=
  match processed_results with
  | [] => (files, saved_files, summaries)
  | result :: rest =>
      save_loop query (S i) rest
        (<[p_filename result := file_content query i result]> files)
        (saved_files ++ [p_filename result])
        (summaries ++ [lit "- " ++ p_filename result ++ lit ": "
                         ++ p_summary result ++ lit "..."])
  end.

(** The text of the message [tavily_search] answers with; it opens with
    U+1F50D and its last line with U+1F4A1. *)
Definition summary_text (query : str) (count : nat) (saved_files summaries : list str)
    : str :=
  [128269%N] ++ lit " Found " ++ str_of_int (Z.of_nat count)
    ++ lit " result(s) for '" ++ query ++ lit "':" ++ [LF]
    ++ [LF]
    ++ join [LF] summaries ++ [LF]
    ++ [LF]
    ++ lit "Files: " ++ join (lit ", ") saved_files ++ [LF]
    ++ [128161%N] ++ lit " Use read_file() to access full details when needed.".

(** [tavily_search(query, state, tool_call_id, max_results, topic)]: the
    injected state after the call, whose [files] dictionary is updated in
    place, and the command returned or the fault raised. *)
Definition tavily_search (query : str) (state : DeepAgentState) (tool_call_id : str)
    (max_results : Z) (topic : str) : DeepAgentState * outcome Update :=
  match run_tavily_search query max_results topic true with
  | Raise e => (state, Raise e)
  | Return search_results =>
      match process_search_results search_results with
      | Raise e => (state, Raise e)
      | Return processed_results =>
          let '(files', saved_files, summaries) :=
            save_loop query 0 processed_results (default ∅ (files state)) [] [] in
          (match files state with
           | Some _ => mkState (messages state) (todos state) (Some files')
           | None => state
           end,
           Return {| u_files := Some files';
                     u_todos := None;
                     u_messages :=
                       Some [ToolMessage
                               (summary_text query (length processed_results)
                                             saved_files summaries)
                               tool_call_id] |})
      end
  end.

(** What the loop of [process_search_results] appends for the [i]-th
    result, when the result has its ["url"] and ["title"]. *)
Definition processed_of (i : nat) (result : TavilyResult) : ProcessedResult :=
  let url := default [] (r_url result) in
  let '(raw_content, summary_obj) := fetch_and_summarize i result url in
  mkProcessed url (default [] (r_title result)) (summary summary_obj)
    (with_uid (filename summary_obj) (uuid4_uid i)) raw_content.

(** The files [tavily_search] writes, in the order it writes them: the
    name and the content for each processed result, [i] counting from the
    first of the loop. *)
Definition saved_entries (query : str) (i : nat)
    (processed_results : list ProcessedResult) : list (str * str) :=
  imap (fun k result => (p_filename result, file_content query (i + k) result))
       processed_results.

(** The line of the answer for one result. *)
Definition summary_line (result : ProcessedResult) : str :=
  lit "- " ++ p_filename result ++ lit ": " ++ p_summary result ++ lit "...".

End ResearchTools.

Arguments splitext os_sep os_altsep p : assert.

(** A result with the two keys [process_search_results] indexes. *)
Definition has_url_and_title (result : TavilyResult) : Prop :=
  is_Some (r_url result) ∧ is_Some (r_title result).

(** The two path flavours of the interpreter: POSIX, and Windows. *)
Definition path_flavour (os_sep : char) (os_altsep : option char) : Prop :=
  (os_sep = 47%N ∧ os_altsep = None) ∨ (os_sep = 92%N ∧ os_altsep = Some 47%N).

(** Assignments [m[k] = v] in a row. *)
Definition insert_all (m : gmap str str) (entries : list (str * str)) : gmap str str :=
  foldl (fun m e => <[e.1 := e.2]> m) m entries.

(** ** The specification's wording, to compare the code with *)

(** The lines of [read_file] as the specification words them: the lines whose
    indices lie in [[offset, min(offset+limit, n))], the one of index [i]
    under its line number [i + 1] right-aligned to width six, then a tab, then
    its first 2000 characters. *)
Definition numbered_slice (lines : list str) (offset limit : Z) : list str :=
  let n := Z.of_nat (length lines) in
  imap (fun k line => format_6d (offset + Z.of_nat k + 1) ++ [TAB] ++ take 2000 line)
       (take (Z.to_nat (Z.min (offset + limit) n - offset))
             (drop (Z.to_nat offset) lines)).

(** The one mapping a sequence of updates folds into, as the specification
    words it, key by key: the value of a key is the one given by the last
    update of the sequence that has the key. *)
Definition latest_value (updates : list (option (gmap str str))) (k : str)
    : option str :=
  last (omap (fun u => u ≫= (.!! k)) updates).

(** The marker of a status as the specification words it: one marker for
    each of the three statuses, a fourth one for anything else. *)
Definition status_marker (status : str) : str :=
  if decide (status = lit "pending") then [9203%N]
  else if decide (status = lit "in_progress") then [128260%N]
  else if decide (status = lit "completed") then [9989%N]
  else [10067%N].

(** The first character of a numeral field: a space, a minus sign or a
    digit. *)
Definition numeral_start (c : char) : Prop :=
  c = 32%N ∨ c = 45%N ∨ (48 ≤ c ≤ 57)%N.

(** [repr] on a string of printable ASCII characters that holds neither a
    quote nor a backslash: the string between single quotes. *)
Definition repr_plain (s : str) : str := lit "'" ++ s ++ lit "'".

(** States used as concrete inputs. *)
Definition empty_state : DeepAgentState := mkState [] None None.

(** A state that already holds ["x.md"]. *)
Definition draft_state : DeepAgentState :=
  mkState [] None (Some {[ lit "x.md" := lit "old" ]}).

Definition three_lines : str :=
  lit "alpha" ++ [LF] ++ lit "beta" ++ [CR; LF] ++ lit "gamma" ++ [LF].

Definition notes_state : DeepAgentState :=
  mkState [user_turn (lit "hi")] None
    (Some {[ lit "notes.md" := three_lines; lit "e.md" := [] ]}).

(** A sub-agent for concrete runs: it answers in three messages and
    writes one file. *)
Definition research_agent_run (s : DeepAgentState) : DeepAgentState :=
  mkState
    (messages s ++ [ mkMessage (lit "ai") (lit "searching") None;
                     mkMessage (lit "tool") (lit "3 hits") (Some (lit "call_1"));
                     mkMessage (lit "ai") (lit "found Y") None ])
    (todos s)
    (Some (<[ lit "result_ab12cd34.md" := lit "Y" ]> (default ∅ (files s)))).

Definition research_agent : Agent := fun s => Return (research_agent_run s).

Definition registry : pydict Agent := [ (lit "research-agent", research_agent) ].

Definition parent_state : DeepAgentState :=
  mkState [ mkMessage (lit "user") (lit "please find Y") None;
            mkMessage (lit "ai") (lit "delegating") None ]
          (Some [ mkTodo (lit "research topic") (lit "in_progress") ])
          (Some {[ lit "plan.md" := lit "step 1" ]}).

(** ** Further definitions for the properties of the code *)

(** The state once the command of a [write_file] has been folded into it. *)
Definition after_write_file (file_path content : str) (state : DeepAgentState)
    (tool_call_id : str) : DeepAgentState :=
  apply_update state (wr_command (write_file file_path content state tool_call_id)).

(** A string without any line boundary of [str.splitlines]. *)
Definition boundary_free (s : str) : Prop :=
  Forall (fun c => is_linebreak c = false) s.

(** One row of a listing: a line under its number. *)
Definition numbered_row (number : Z) (line : str) : str :=
  format_6d number ++ [TAB] ++ take 2000 line.

(** The tools a sub-agent is built with in [_create_task_tool]: the ones
    its [tools] key names, or all of them without the key. *)
Definition agent_tools {Tool} (tool_name : Tool -> str) (tools : list Tool)
    (_agent : SubAgent) : outcome (list Tool) :=
  match sa_tools _agent with
  | Some names => lookup_tools (tools_by_name tool_name tools) names
  | None => Return tools
  end.

(** A loop of [d[key(x)] = val(x)] over a list. *)
Definition dict_fill {V X} (key : X -> str) (val : X -> V) (d : pydict V)
    (xs : list X) : pydict V :=
  foldl (fun d x => dict_set d (key x) (val x)) d xs.

(** The agent [_create_task_tool] builds for a sub-agent whose tools are all
    known. *)
Definition built_agent {Tool} (tool_name : Tool -> str)
    (create_react_agent : str -> list Tool -> Agent) (tools : list Tool)
    (_agent : SubAgent) : Agent :=
  create_react_agent (sa_prompt _agent)
    (match agent_tools tool_name tools _agent with
     | Return _tools => _tools
     | Raise _ => []
     end).

(** A sub-agent that names a tool the tool list does not hold. *)
Definition names_unknown_tool {Tool} (tool_name : Tool -> str) (tools : list Tool)
    (_agent : SubAgent) : Prop :=
  ∃ names t, sa_tools _agent = Some names ∧ t ∈ names ∧ t ∉ tool_name <$> tools.

(** Sub-agents for concrete runs: one that fails, one that returns an empty
    transcript. *)
Definition failing_agent : Agent := fun _ => Raise (AgentFault (lit "model unreachable")).

Definition silent_agent : Agent := fun s => Return (mkState [] (todos s) (files s)).

(** The configuration of [big.py]: two tools for the sub-agents, named by
    their function, and the one research sub-agent that lists both. *)
Definition sub_agent_tools : list str := [ lit "tavily_search"; lit "think_tool" ].

Definition research_sub_agent : SubAgent :=
  mkSubAgent (lit "research-agent")
    (lit "Delegate research to the sub-agent researcher. Only give this researcher one topic at a time.")
    (lit "RESEARCHER_INSTRUCTIONS")
    (Some [ lit "tavily_search"; lit "think_tool" ]).

(** A world for concrete runs of the research tools: a search with two
    results, the first page fetched and the second not, no summarization
    model, POSIX paths. *)
Definition result_a : TavilyResult :=
  mkTavilyResult (Some (lit "https://a.example/y")) (Some (lit "About Y"))
                 (Some (Some (lit "raw a"))) (Some (lit "snippet a")).

Definition result_b : TavilyResult :=
  mkTavilyResult (Some (lit "https://b.example/y")) (Some (lit "More on Y")) None None.

Definition demo_search (query : str) (max_results : Z) (include_raw_content : bool)
    (topic : str) : outcome (option (list TavilyResult)) :=
  Return (Some [result_a; result_b]).

Definition demo_get (i : nat) (url : str) : outcome Response :=
  match i with
  | O => Return (mkResponse 200 (lit "Y is a letter."))
  | _ => Raise (AgentFault (lit "timeout"))
  end.

Definition demo_markdownify (html : str) : str := html.

Definition demo_summarizer (i : nat) (content : str) : outcome Summary :=
  Raise (AgentFault (lit "no model")).

Definition demo_uid (i : nat) : str := lit "uid0000" ++ str_of_int (Z.of_nat i).

Definition demo_today (i : nat) : str := lit "Mon Jan 5, 2026".

Definition demo_processed : list ProcessedResult :=
  [ mkProcessed (lit "https://a.example/y") (lit "About Y") (lit "Y is a letter.")
                (lit "search_result_uid00000.md") (Some (lit "Y is a letter."));
    mkProcessed (lit "https://b.example/y") (lit "More on Y") url_error_text
                (lit "URL_error_uid00001.md") (Some []) ].

Definition demo_tavily_search :=
  tavily_search 47%N None demo_search demo_get demo_markdownify demo_summarizer
                demo_uid demo_today.

(** * Properties *)

(** ** The merge rule *)

Section MergeRule.

Implicit Types base incoming left right : option (gmap str str).
Implicit Types A B C : option (gmap str str).

Lemma file_reducer_None_r left : file_reducer left None = left.
Proof. by destruct left. Qed.

Lemma file_reducer_assoc A B C :
  file_reducer (file_reducer A B) C = file_reducer A (file_reducer B C).
Proof.
  destruct A as [a|], B as [b|], C as [c|]; simpl; try reflexivity.
  f_equal. by rewrite (assoc_L (∪)).
Qed.

Lemma merge_all_from_None A updates :
  merge_all A updates = file_reducer A (merge_all None updates).
Proof.
  unfold merge_all. revert A.
  induction updates as [|u us IH]; intros A; simpl.
  - by rewrite file_reducer_None_r.
  - rewrite (IH (file_reducer A u)), (IH u). apply file_reducer_assoc.
Qed.

(** C1. [file_reducer] returns [incoming] when [base] is [None] and
    [base] when [incoming] is [None]; on two mappings it returns a mapping
    whose keys are those of both, a key of [incoming] carrying
    [incoming]'s value and a key of [base] alone carrying [base]'s. *)
Theorem file_reducer_contract base incoming :
  (base = None → file_reducer base incoming = incoming) ∧
  (incoming = None → file_reducer base incoming = base) ∧
  (∀ b i, base = Some b → incoming = Some i →
     ∃ m, file_reducer base incoming = Some m ∧
          dom m = dom b ∪ dom i ∧
          (∀ k v, i !! k = Some v → m !! k = Some v) ∧
          (∀ k, i !! k = None → m !! k = b !! k)).
Proof.
  split; [by intros -> |]. split; [intros ->; apply file_reducer_None_r |].
  intros b i -> ->. exists (i ∪ b). split; [done |].
  split; [rewrite dom_union_L; apply (comm_L (∪)) |].
  split.
  - intros k v Hk. by apply lookup_union_Some_l.
  - intros k Hk. by apply lookup_union_r.
Qed.

Lemma file_reducer_lookup A B (k : str) :
  default ∅ (file_reducer A B) !! k =
  match default ∅ B !! k with
  | Some v => Some v
  | None => default ∅ A !! k
  end.
Proof.
  destruct A as [a|], B as [b|]; simpl.
  - rewrite lookup_union. by destruct (b !! k), (a !! k).
  - by rewrite lookup_empty.
  - rewrite lookup_empty. by destruct (b !! k).
  - by rewrite lookup_empty.
Qed.

Lemma merge_all_latest updates (k : str) :
  default ∅ (merge_all None updates) !! k = latest_value updates k.
Proof.
  unfold merge_all, latest_value.
  induction updates as [|u us IH] using rev_ind; [apply lookup_empty |].
  rewrite foldl_snoc, file_reducer_lookup, IH, omap_app, last_app. simpl.
  destruct u as [m|]; simpl; [| done]. by destruct (m !! k).
Qed.

(** C8. Merging [A] with [B] and the result with [C] is merging [A] with
    the merge of [B] and [C], in which [C] wins over [B]; and merging a
    sequence of updates into [A] one after the other is merging [A] with
    the one mapping the sequence folds into, in which a key has the value
    of the last update that carries it. *)
Theorem merge_sequential_fold A B C updates :
  file_reducer (file_reducer A B) C = file_reducer A (file_reducer B C) ∧
  (∀ b c, file_reducer (Some b) (Some c) = Some (c ∪ b)) ∧
  merge_all A updates = file_reducer A (merge_all None updates) ∧
  (∀ k, default ∅ (merge_all None updates) !! k = latest_value updates k).
Proof.
  split; [apply file_reducer_assoc |].
  split; [done |].
  split; [apply merge_all_from_None | apply merge_all_latest].
Qed.

End MergeRule.

(** ** Strings *)

Section Strings.

Implicit Types s t sep : str.
Implicit Types c : char.

Lemma lit_cons a (r : string) : lit (String a r) = N_of_ascii a :: lit r.
Proof. reflexivity. Qed.

Lemma string_of_uint_head d :
  ∃ a r, NilZero.string_of_uint d = String a r ∧ numeral_start (N_of_ascii a).
Proof.
  unfold numeral_start.
  destruct d; simpl; eexists _, _; (split; [reflexivity |]);
    right; right; vm_compute; split; discriminate.
Qed.

Lemma str_of_int_head n :
  ∃ c r, str_of_int n = c :: r ∧ numeral_start c.
Proof.
  unfold str_of_int.
  destruct (Z.to_int n) as [d|d]; simpl.
  - destruct (string_of_uint_head d) as (a & r & -> & Ha).
    rewrite lit_cons. eauto.
  - eexists _, _. split; [apply lit_cons |]. right; left. reflexivity.
Qed.

Lemma format_6d_head n :
  ∃ c r, format_6d n = c :: r ∧ numeral_start c.
Proof.
  unfold format_6d, spaces.
  destruct (6 - length (str_of_int n))%nat as [|k]; simpl.
  - apply str_of_int_head.
  - eexists _, _. split; [reflexivity |]. by left.
Qed.

Lemma numbered_line_head i line :
  ∃ c r, numbered_line i line = c :: r ∧ numeral_start c.
Proof.
  unfold numbered_line.
  destruct (format_6d_head (i + 1)) as (c & r & -> & Hc).
  simpl. eauto.
Qed.

(** [f"{n:6d}"] is the numeral of [n] behind the spaces that bring it to
    six characters. *)
Lemma format_6d_right_aligned n :
  ∃ pad, format_6d n = spaces pad ++ str_of_int n ∧
         length (format_6d n) = (length (str_of_int n) `max` 6)%nat.
Proof.
  unfold format_6d, spaces. eexists. split; [reflexivity |].
  rewrite length_app, repeat_length. lia.
Qed.

Lemma join_cons_head sep c r rest :
  ∃ t, join sep ((c :: r) :: rest) = c :: t.
Proof. destruct rest; simpl; eauto. Qed.

Lemma join_cons2 sep p q rest :
  join sep (p :: q :: rest) = p ++ sep ++ join sep (q :: rest).
Proof. reflexivity. Qed.

End Strings.

(** ** Indexing and the loop of [read_file] *)

Section Indexing.

Context {A : Type}.
Implicit Types l : list A.

Lemma getitem_nonneg l (k : nat) x :
  l !! k = Some x → getitem l (Z.of_nat k) = Return x.
Proof.
  intros Hk. pose proof (lookup_lt_Some _ _ _ Hk) as Hlt.
  unfold getitem.
  destruct (Z.ltb_spec (Z.of_nat k) 0) as [?|_]; [lia |].
  destruct (Z.leb_spec 0 (Z.of_nat k)) as [_|?]; [| lia].
  destruct (Z.ltb_spec (Z.of_nat k) (Z.of_nat (length l))) as [_|?]; [| lia].
  simpl. by rewrite Nat2Z.id, Hk.
Qed.

Lemma getitem_negative l (k : nat) x :
  l !! k = Some x →
  getitem l (Z.of_nat k - Z.of_nat (length l)) = Return x.
Proof.
  intros Hk. pose proof (lookup_lt_Some _ _ _ Hk) as Hlt.
  unfold getitem.
  destruct (Z.ltb_spec (Z.of_nat k - Z.of_nat (length l)) 0) as [_|?]; [| lia].
  replace (Z.of_nat (length l) + (Z.of_nat k - Z.of_nat (length l)))
    with (Z.of_nat k) by lia.
  destruct (Z.leb_spec 0 (Z.of_nat k)) as [_|?]; [| lia].
  destruct (Z.ltb_spec (Z.of_nat k) (Z.of_nat (length l))) as [_|?]; [| lia].
  simpl. by rewrite Nat2Z.id, Hk.
Qed.

Lemma getitem_out_of_range l i :
  i < - Z.of_nat (length l) ∨ Z.of_nat (length l) ≤ i →
  getitem l i = Raise IndexError.
Proof.
  intros Hi. unfold getitem.
  destruct (Z.ltb_spec i 0).
  - destruct (Z.leb_spec 0 (Z.of_nat (length l) + i)); [lia | done].
  - destruct (Z.ltb_spec i (Z.of_nat (length l))); [lia |].
    by rewrite andb_false_r.
Qed.

Lemma getitem_in_range l i :
  - Z.of_nat (length l) ≤ i < Z.of_nat (length l) →
  ∃ x, getitem l i = Return x.
Proof.
  intros Hi. destruct (Z.ltb_spec i 0).
  - destruct (lookup_lt_is_Some_2 l (Z.to_nat (Z.of_nat (length l) + i)))
      as [x Hx]; [lia |].
    exists x. rewrite <- (getitem_negative _ _ _ Hx). f_equal. lia.
  - destruct (lookup_lt_is_Some_2 l (Z.to_nat i)) as [x Hx]; [lia |].
    exists x. rewrite <- (getitem_nonneg _ _ _ Hx). f_equal. lia.
Qed.

Lemma getitem_last l :
  getitem l (-1) = match last l with
                   | Some x => Return x
                   | None => Raise IndexError
                   end.
Proof.
  destruct (last l) as [x|] eqn:Hlast.
  - rewrite last_lookup in Hlast.
    pose proof (lookup_lt_Some _ _ _ Hlast) as Hlt.
    rewrite <- (getitem_negative _ _ _ Hlast). f_equal. lia.
  - apply last_None in Hlast as ->. reflexivity.
Qed.

End Indexing.

Section ReadLoop.

Variable lines : list str.

Lemma seqZ_to_nat (a len : Z) : seqZ a len = seqZ a (Z.of_nat (Z.to_nat len)).
Proof. unfold seqZ. by rewrite Nat2Z.id. Qed.

Lemma read_file_loop_app idxs1 idxs2 acc :
  read_file_loop lines (idxs1 ++ idxs2) acc =
  (r ← read_file_loop lines idxs1 acc; read_file_loop lines idxs2 r).
Proof.
  revert acc. induction idxs1 as [|i idxs1 IH]; intros acc; simpl; [done |].
  destruct (getitem lines i); simpl; [apply IH | done].
Qed.

(** Over indices that count from the start. *)
Lemma read_file_loop_nonneg (m : nat) :
  ∀ (a : nat) acc, (a + m ≤ length lines)%nat →
    read_file_loop lines (seqZ (Z.of_nat a) (Z.of_nat m)) acc =
    Return (acc ++ imap (fun k line => numbered_line (Z.of_nat a + Z.of_nat k) line)
                        (take m (drop a lines))).
Proof.
  induction m as [|m IH]; intros a acc Hlen.
  - simpl. by rewrite app_nil_r.
  - destruct (lookup_lt_is_Some_2 lines a) as [x Hx]; [lia |].
    rewrite seqZ_cons by lia.
    replace (Z.succ (Z.of_nat a)) with (Z.of_nat (S a)) by lia.
    replace (Z.pred (Z.of_nat (S m))) with (Z.of_nat m) by lia.
    simpl. rewrite (getitem_nonneg _ _ _ Hx). simpl.
    rewrite IH by lia. rewrite (drop_S _ _ _ Hx). simpl.
    rewrite <- app_assoc. simpl. do 3 f_equal.
    + f_equal. lia.
    + apply imap_ext. intros k y _. simpl. f_equal. lia.
Qed.

(** Over indices that count from the end. *)
Lemma read_file_loop_negative (m : nat) :
  ∀ (a : nat) acc, (a + m ≤ length lines)%nat →
    read_file_loop lines
      (seqZ (Z.of_nat a - Z.of_nat (length lines)) (Z.of_nat m)) acc =
    Return (acc ++ imap (fun k line =>
                           numbered_line (Z.of_nat a - Z.of_nat (length lines)
                                          + Z.of_nat k) line)
                        (take m (drop a lines))).
Proof.
  induction m as [|m IH]; intros a acc Hlen.
  - simpl. by rewrite app_nil_r.
  - destruct (lookup_lt_is_Some_2 lines a) as [x Hx]; [lia |].
    rewrite seqZ_cons by lia.
    replace (Z.succ (Z.of_nat a - Z.of_nat (length lines)))
      with (Z.of_nat (S a) - Z.of_nat (length lines)) by lia.
    replace (Z.pred (Z.of_nat (S m))) with (Z.of_nat m) by lia.
    simpl. rewrite (getitem_negative _ _ _ Hx). simpl.
    rewrite IH by lia. rewrite (drop_S _ _ _ Hx). simpl.
    rewrite <- app_assoc. simpl. do 3 f_equal.
    + f_equal. lia.
    + apply imap_ext. intros k y _. simpl. f_equal. lia.
Qed.

(** Whatever the loop returns is made of numbered lines. *)
Lemma read_file_loop_shape idxs :
  ∀ acc r, read_file_loop lines idxs acc = Return r →
    ∃ new, r = acc ++ new ∧
           Forall (fun l => ∃ c t, l = c :: t ∧ numeral_start c) new.
Proof.
  induction idxs as [|i idxs IH]; intros acc r; simpl.
  - intros [= <-]. exists []. by rewrite app_nil_r.
  - destruct (getitem lines i) as [line|e]; simpl; [| done].
    intros Hr. destruct (IH _ _ Hr) as (new & -> & Hnew).
    exists (numbered_line i line :: new). rewrite <- app_assoc. split; [done |].
    constructor; [apply numbered_line_head | done].
Qed.

(** The loop returns when every index is one of the list. *)
Lemma read_file_loop_returns idxs :
  Forall (fun i => - Z.of_nat (length lines) ≤ i < Z.of_nat (length lines)) idxs →
  ∀ acc, ∃ r, read_file_loop lines idxs acc = Return r.
Proof.
  induction 1 as [|i idxs Hi _ IH]; intros acc; simpl; [eauto |].
  destruct (getitem_in_range lines i Hi) as [x ->]. simpl. apply IH.
Qed.

End ReadLoop.

(** ** The virtual file store *)

Section FileStore.

Implicit Types file_path content tool_call_id : str.
Implicit Types state : DeepAgentState.
Implicit Types offset limit : Z.

Lemma read_file_absent file_path state offset limit :
  default ∅ (files state) !! file_path = None →
  read_file file_path state offset limit = Return (not_found_error file_path).
Proof. intros H. unfold read_file. cbv zeta. by rewrite H. Qed.

Lemma read_file_empty file_path state offset limit :
  default ∅ (files state) !! file_path = Some [] →
  read_file file_path state offset limit = Return empty_file_notice.
Proof. intros H. unfold read_file. cbv zeta. by rewrite H. Qed.

Lemma read_file_present file_path state content offset limit :
  default ∅ (files state) !! file_path = Some content →
  content ≠ [] →
  read_file file_path state offset limit =
  let lines := splitlines content in
  if offset >=? Z.of_nat (length lines)
  then Return (offset_error offset (length lines))
  else
    result_lines ← read_file_loop lines
      (range offset (Z.min (offset + limit) (Z.of_nat (length lines)))) [];
    Return (join [LF] result_lines).
Proof.
  intros H Hne. unfold read_file. cbv zeta. rewrite H. by destruct content.
Qed.

(** What the state holds under a path once the command of [write_file] has
    been folded into it. *)
Lemma write_file_lookup file_path content state tool_call_id :
  let r := write_file file_path content state tool_call_id in
  ∃ fs, files (apply_update state (wr_command r)) = Some fs ∧
        fs !! file_path = Some content ∧
        ∀ p, p ≠ file_path → fs !! p = default ∅ (files state) !! p.
Proof.
  simpl. destruct (files state) as [f|]; simpl; eexists; (split; [reflexivity |]).
  - split.
    + apply lookup_union_Some_l, lookup_insert_eq.
    + intros p Hp. rewrite lookup_union.
      rewrite lookup_insert_ne by done. by destruct (f !! p).
  - split; [apply lookup_insert_eq |].
    intros p Hp. by rewrite lookup_insert_ne.
Qed.

Lemma read_file_below_raises file_path state content offset limit :
  default ∅ (files state) !! file_path = Some content →
  content ≠ [] →
  offset < - Z.of_nat (length (splitlines content)) →
  0 < limit →
  read_file file_path state offset limit = Raise IndexError.
Proof.
  intros H Hne Hoff Hlim. rewrite (read_file_present _ _ _ _ _ H Hne). simpl.
  destruct (Z.geb_spec offset (Z.of_nat (length (splitlines content)))); [lia |].
  unfold range. rewrite seqZ_cons by lia. simpl.
  rewrite getitem_out_of_range by lia. done.
Qed.

Lemma read_file_returns file_path state offset limit :
  (∀ content, default ∅ (files state) !! file_path = Some content →
     - Z.of_nat (length (splitlines content)) ≤ offset ∨ limit ≤ 0) →
  ∃ text, read_file file_path state offset limit = Return text.
Proof.
  intros Hsafe.
  destruct (default ∅ (files state) !! file_path) as [content|] eqn:H;
    [| rewrite (read_file_absent _ _ _ _ H); eauto].
  destruct (decide (content = [])) as [->|Hne];
    [rewrite (read_file_empty _ _ _ _ H); eauto |].
  rewrite (read_file_present _ _ _ _ _ H Hne). simpl.
  destruct (Z.geb_spec offset (Z.of_nat (length (splitlines content)))); [eauto |].
  edestruct (read_file_loop_returns (splitlines content)) as [r ->];
    [| simpl; eauto].
  apply Forall_forall. intros i Hi. unfold range in Hi.
  apply elem_of_seqZ in Hi. destruct (Hsafe _ eq_refl); lia.
Qed.

(** C4. On a non-empty file of [n] lines and an offset that is not
    negative, [read_file] returns the offset error when [offset >= n], and
    otherwise the lines of indices [[offset, min(offset+limit, n))], each
    under its 1-based number in a field of six, a tab and its first 2000
    characters, joined by newlines; when [offset+limit] passes [n] these
    are the lines through the end of the file; and reading ["x.md"] after
    writing ["hello"] to it gives the one line ["     1\thello"]. *)
Theorem read_file_slice file_path state content offset limit :
  default ∅ (files state) !! file_path = Some content →
  content ≠ [] →
  0 ≤ offset →
  let lines := splitlines content in
  let n := Z.of_nat (length lines) in
  (n ≤ offset →
     read_file file_path state offset limit
     = Return (offset_error offset (length lines))) ∧
  (offset < n →
     read_file file_path state offset limit
     = Return (join [LF] (numbered_slice lines offset limit))) ∧
  (offset < n → n ≤ offset + limit →
     numbered_slice lines offset limit
     = imap (fun k line => format_6d (offset + Z.of_nat k + 1) ++ [TAB] ++ take 2000 line)
            (drop (Z.to_nat offset) lines)) ∧
  (∀ s tool_call_id,
     read_file (lit "x.md")
       (apply_update s (wr_command (write_file (lit "x.md") (lit "hello") s tool_call_id)))
       0 2000
     = Return (lit "     1" ++ [TAB] ++ lit "hello")).
Proof.
  intros H Hne Hoff lines n. subst n.
  split; [| split; [| split]].
  - intros Hge. rewrite (read_file_present _ _ _ _ _ H Hne). simpl. fold lines.
    by destruct (Z.geb_spec offset (Z.of_nat (length lines))); [| lia].
  - intros Hlt. rewrite (read_file_present _ _ _ _ _ H Hne). simpl. fold lines.
    destruct (Z.geb_spec offset (Z.of_nat (length lines))); [lia |].
    unfold range. rewrite seqZ_to_nat.
    rewrite <- (Z2Nat.id offset) at 1 by done.
    rewrite read_file_loop_nonneg by lia. simpl. do 2 f_equal.
    unfold numbered_slice. apply imap_ext. intros k line _. simpl.
    unfold numbered_line. do 2 f_equal. lia.
  - intros Hlt Hend. unfold numbered_slice.
    rewrite take_ge; [done |]. rewrite length_drop. lia.
  - intros s tool_call_id.
    destruct (write_file_lookup (lit "x.md") (lit "hello") s tool_call_id)
      as (fs & Hfs & Hx & _).
    rewrite (read_file_present _ _ (lit "hello")); [| by rewrite Hfs | done].
    reflexivity.
Qed.

(** C10. On a non-empty file of [n] lines, an offset with
    [-n <= offset < 0] and a limit of at least [n - offset], [read_file]
    returns [n - offset] lines: the last [-offset] lines of the file under
    the numbers [offset+1] to [0], then the whole file under [1] to [n]. *)
Theorem read_file_negative_offset file_path state content offset limit :
  default ∅ (files state) !! file_path = Some content →
  content ≠ [] →
  let lines := splitlines content in
  let n := Z.of_nat (length lines) in
  - n ≤ offset < 0 →
  n - offset ≤ limit →
  let tail_part :=
    imap (fun k line => format_6d (offset + 1 + Z.of_nat k) ++ [TAB] ++ take 2000 line)
         (drop (Z.to_nat (n + offset)) lines) in
  let whole_file :=
    imap (fun k line => format_6d (1 + Z.of_nat k) ++ [TAB] ++ take 2000 line) lines in
  read_file file_path state offset limit
    = Return (join [LF] (tail_part ++ whole_file)) ∧
  length tail_part = Z.to_nat (- offset) ∧
  length (tail_part ++ whole_file) = Z.to_nat (n - offset).
Proof.
  intros H Hne lines n Hoff Hlim tail_part whole_file. subst n.
  split; [| split].
  - rewrite (read_file_present _ _ _ _ _ H Hne). simpl. fold lines.
    destruct (Z.geb_spec offset (Z.of_nat (length lines))); [lia |].
    unfold range.
    replace (Z.min (offset + limit) (Z.of_nat (length lines)) - offset)
      with (- offset + Z.of_nat (length lines)) by lia.
    rewrite seqZ_app by lia.
    replace (offset + - offset) with (Z.of_nat 0) by lia.
    rewrite read_file_loop_app.
    rewrite (seqZ_to_nat offset).
    replace offset
      with (Z.of_nat (Z.to_nat (Z.of_nat (length lines) + offset))
            - Z.of_nat (length lines)) at 1 by lia.
    rewrite read_file_loop_negative by lia. simpl.
    rewrite read_file_loop_nonneg by lia. simpl.
    do 2 f_equal. rewrite take_ge by (rewrite length_drop; lia).
    rewrite firstn_all. f_equal.
    + apply imap_ext. intros k line _. simpl. unfold numbered_line.
      do 2 f_equal. lia.
    + apply imap_ext. intros k line _. simpl. unfold numbered_line.
      do 2 f_equal. lia.
  - unfold tail_part. rewrite length_imap, length_drop. lia.
  - unfold tail_part, whole_file.
    rewrite length_app, !length_imap, length_drop. lia.
Qed.

(** [read_file] raises exactly on a non-empty file, an offset below
    [-n] and a positive limit. *)
Lemma read_file_raises_iff file_path state offset limit e :
  read_file file_path state offset limit = Raise e ↔
  e = IndexError ∧
  ∃ content, default ∅ (files state) !! file_path = Some content ∧
             content ≠ [] ∧
             offset < - Z.of_nat (length (splitlines content)) ∧
             0 < limit.
Proof.
  split.
  - intros Hraise.
    destruct (default ∅ (files state) !! file_path) as [content|] eqn:H;
      [| by rewrite (read_file_absent _ _ _ _ H) in Hraise].
    destruct (decide (content = [])) as [->|Hne];
      [by rewrite (read_file_empty _ _ _ _ H) in Hraise |].
    destruct (decide (offset < - Z.of_nat (length (splitlines content)) ∧ 0 < limit))
      as [[Hoff Hlim]|Hsafe].
    + rewrite (read_file_below_raises _ _ _ _ _ H Hne Hoff Hlim) in Hraise.
      injection Hraise as <-. eauto 10.
    + destruct (read_file_returns file_path state offset limit) as [text Htext].
      * intros content' Hc. rewrite H in Hc. injection Hc as <-. lia.
      * by rewrite Htext in Hraise.
  - intros (-> & content & H & Hne & Hoff & Hlim).
    by apply (read_file_below_raises _ _ content).
Qed.

(** C5. [read_file] can raise: on the one-line file ["a"] an offset of
    [-2] makes the loop index [lines[-2]], an [IndexError]. *)
Theorem read_file_raises_IndexError :
  read_file (lit "a.md") (mkState [] None (Some {[ lit "a.md" := lit "a" ]}))
    (-2) 2000
  = Raise IndexError.
Proof. vm_compute. reflexivity. Qed.

Lemma Return_inj {A} (a b : A) : Return a = Return b → a = b.
Proof. by intros [= ->]. Qed.

Lemma not_found_error_at_7 file_path :
  not_found_error file_path !! 7%nat = Some 70%N.
Proof. reflexivity. Qed.

Lemma offset_error_at_7 offset line_count :
  offset_error offset line_count !! 7%nat = Some 76%N.
Proof. reflexivity. Qed.

Lemma numeral_start_not_letter (c : char) :
  numeral_start c → c ≠ 69%N ∧ c ≠ 83%N.
Proof. unfold numeral_start. lia. Qed.

(** The listing of a present, non-empty file is never the not-found text. *)
Lemma read_file_present_not_not_found file_path state content offset limit :
  default ∅ (files state) !! file_path = Some content →
  read_file file_path state offset limit ≠ Return (not_found_error file_path).
Proof.
  intros H.
  destruct (decide (content = [])) as [->|Hne].
  { rewrite (read_file_empty _ _ _ _ H). discriminate. }
  rewrite (read_file_present _ _ _ _ _ H Hne). cbv zeta.
  destruct (offset >=? _).
  { intros Heq. apply Return_inj in Heq. apply (f_equal (fun s => s !! 7%nat)) in Heq.
    rewrite not_found_error_at_7, offset_error_at_7 in Heq. discriminate. }
  destruct (read_file_loop _ _ _) as [r|e] eqn:Hloop; [| discriminate].
  destruct (read_file_loop_shape _ _ _ _ Hloop) as (new & -> & Hnew).
  intros Heq. apply Return_inj in Heq. rewrite app_nil_l in Heq.
  destruct Hnew as [|l rest (c & t & -> & Hc) _]; [discriminate |].
  destruct (join_cons_head [LF] c t rest) as [t' Ht']. rewrite Ht' in Heq.
  injection Heq as -> _. by destruct (numeral_start_not_letter _ Hc).
Qed.

(** C7. [read_file] returns the not-found text exactly when the path is
    not a key of [files]; on a key whose content is the empty string it
    returns the empty-file notice whatever the offset and the limit; the
    notice is neither of the two error texts nor a numbered line. *)
Theorem read_file_taxonomy file_path state offset limit :
  (read_file file_path state offset limit = Return (not_found_error file_path)
     ↔ default ∅ (files state) !! file_path = None) ∧
  (default ∅ (files state) !! file_path = Some []
     → read_file file_path state offset limit = Return empty_file_notice) ∧
  (∀ p, empty_file_notice ≠ not_found_error p) ∧
  (∀ o n, empty_file_notice ≠ offset_error o n) ∧
  (∀ i line, empty_file_notice ≠ numbered_line i line).
Proof.
  split; [| split; [| split; [| split]]].
  - split; [| apply read_file_absent].
    intros Hret.
    destruct (default ∅ (files state) !! file_path) as [content|] eqn:H; [| done].
    by destruct (read_file_present_not_not_found _ _ _ offset limit H).
  - apply read_file_empty.
  - discriminate.
  - discriminate.
  - intros i line Heq.
    destruct (numbered_line_head i line) as (c & t & Hl & Hc).
    rewrite Hl in Heq. injection Heq as <- _.
    by destruct (numeral_start_not_letter _ Hc).
Qed.

Lemma write_file_log_distinct file_path :
  write_file_log file_path false ≠ write_file_log file_path true.
Proof.
  unfold write_file_log. intros Heq.
  do 2 apply app_inv_head in Heq. discriminate.
Qed.

(** C6, amended. [write_file] always returns a command; the command carries
    [files] with [content] under [file_path], so that the state it is
    folded into has [content] under [file_path], whether the key was there
    or not, and every other key as before. The one message of the command
    reads "Updated file" and the path, whatever the state: it is the same
    for a key that was absent and for a key that was present. The words
    "created" and "updated" go to a call of [logger.debug] only. *)
Theorem write_file_postcondition file_path content state tool_call_id :
  let r := write_file file_path content state tool_call_id in
  let before := default ∅ (files state) in
  wr_command r
    = {| u_files := Some (<[file_path := content]> before);
         u_todos := None;
         u_messages :=
           Some [ {| msg_role := lit "tool";
                     msg_content := lit "Updated file " ++ file_path;
                     msg_tool_call_id := Some tool_call_id |} ] |} ∧
  (∃ fs, files (apply_update state (wr_command r)) = Some fs ∧
         fs !! file_path = Some content ∧
         ∀ p, p ≠ file_path → fs !! p = before !! p) ∧
  (∀ f, files state = Some f →
        files (wr_state r) = Some (<[file_path := content]> f)) ∧
  (∀ other,
     u_messages (wr_command (write_file file_path content other tool_call_id))
     = u_messages (wr_command r)) ∧
  (before !! file_path = None →
     wr_log r
     = [ mkLog INFO (lit "write_file called for path: " ++ file_path);
         mkLog DEBUG (lit "File " ++ file_path ++ lit " created in virtual filesystem") ]) ∧
  (is_Some (before !! file_path) →
     wr_log r
     = [ mkLog INFO (lit "write_file called for path: " ++ file_path);
         mkLog DEBUG (lit "File " ++ file_path ++ lit " updated in virtual filesystem") ]).
Proof.
  intros r before.
  split; [reflexivity |].
  split; [apply write_file_lookup |].
  split; [by intros f Hf; subst r; unfold write_file; rewrite Hf |].
  split; [reflexivity |].
  split.
  - intros Habs. subst r before. unfold write_file. cbv zeta.
    rewrite bool_decide_eq_false_2; [done |].
    rewrite Habs. by intros [? ?].
  - intros Hpres. subst r before. unfold write_file. cbv zeta.
    by rewrite bool_decide_eq_true_2.
Qed.

(** C6 as first stated does not hold: writing ["x.md"] where it is absent
    and where it is present gives the same confirmation message. *)
Lemma write_file_message_does_not_distinguish :
  default ∅ (files empty_state) !! lit "x.md" = None ∧
  default ∅ (files draft_state) !! lit "x.md" = Some (lit "old") ∧
  ¬ (u_messages (wr_command (write_file (lit "x.md") (lit "new") empty_state
                                        (lit "call_1")))
     ≠ u_messages (wr_command (write_file (lit "x.md") (lit "new") draft_state
                                          (lit "call_1")))) ∧
  u_messages (wr_command (write_file (lit "x.md") (lit "new") draft_state
                                     (lit "call_1")))
  = Some [ mkMessage (lit "tool") (lit "Updated file x.md") (Some (lit "call_1")) ].
Proof.
  split; [reflexivity |]. split; [reflexivity |].
  split; [by intros Hne; apply Hne | reflexivity].
Qed.

End FileStore.

(** ** The TODO store *)

Section TodoStore.

Implicit Types todos : list Todo.
Implicit Types state : DeepAgentState.

Lemma read_todos_loop_spec todos :
  ∀ i result,
    read_todos_loop i todos result =
    result ++ concat (imap (fun k todo => todo_entry (i + Z.of_nat k) todo ++ [LF]) todos).
Proof.
  induction todos as [|todo rest IH]; intros i result; simpl.
  - by rewrite app_nil_r.
  - rewrite IH, <- !app_assoc, Z.add_0_r. do 4 f_equal.
    apply imap_ext. intros k t _. simpl. do 2 f_equal. lia.
Qed.

Lemma concat_lines_join (entries : list str) :
  entries ≠ [] →
  concat ((fun e => e ++ [LF]) <$> entries) = join [LF] entries ++ [LF].
Proof.
  induction entries as [|e [|e' rest] IH]; intros Hne; [done | |].
  - simpl. by rewrite app_nil_r.
  - rewrite join_cons2, fmap_cons, concat_cons. rewrite IH by done.
    by rewrite <- !app_assoc.
Qed.

Lemma join_last sep (c : char) (entries : list str) :
  entries ≠ [] →
  Forall (fun e => ∃ x, e = x ++ [c]) entries →
  ∃ y, join sep entries = y ++ [c].
Proof.
  induction entries as [|e [|e' rest] IH]; intros Hne Hall; [done | |].
  - by inversion Hall.
  - inversion Hall as [|? ? _ Hrest]; subst.
    destruct (IH ltac:(done) Hrest) as [y Hy].
    exists (e ++ sep ++ y). rewrite join_cons2, Hy. by rewrite <- !app_assoc.
Qed.

Lemma todo_entry_last i todo : ∃ x, todo_entry i todo = x ++ [41%N].
Proof. unfold todo_entry. eexists. rewrite !app_assoc. reflexivity. Qed.

Lemma strip_final_newline (c1 c2 : char) (s : str) :
  is_space c1 = false → is_space c2 = false →
  strip (c1 :: s ++ [c2; LF]) = c1 :: s ++ [c2].
Proof.
  intros H1 H2. unfold strip. simpl lstrip at 2. rewrite H1.
  simpl rev at 2. rewrite rev_app_distr. simpl.
  rewrite H2. simpl. rewrite rev_app_distr, rev_involutive. reflexivity.
Qed.

Lemma status_emoji_get (status : str) :
  default unknown_emoji (status_emoji !! status) = status_marker status.
Proof.
  unfold status_marker, status_emoji.
  destruct (decide (status = lit "pending")) as [->|H1]; [reflexivity |].
  destruct (decide (status = lit "in_progress")) as [->|H2]; [reflexivity |].
  destruct (decide (status = lit "completed")) as [->|H3]; [reflexivity |].
  rewrite lookup_insert_ne by done. rewrite lookup_insert_ne by done.
  rewrite lookup_singleton_ne by done. reflexivity.
Qed.

(** C9. [read_todos] returns the no-todos message on an empty list;
    otherwise, under the header line, one line per todo in the order of the
    list, numbered from 1, each made of the number, the marker of its
    status, its content and its status in parentheses; the three statuses
    have three markers, any other status a fourth, and the four markers
    differ from each other. *)
Theorem read_todos_rendering state tool_call_id :
  let items := default [] (todos state) in
  (items = [] → read_todos state tool_call_id = no_todos_message) ∧
  (items ≠ [] →
     read_todos state tool_call_id
     = todo_header ++ [LF]
         ++ join [LF] (imap (fun k todo => todo_entry (1 + Z.of_nat k) todo) items)) ∧
  (∀ i todo,
     todo_entry i todo
     = str_of_int i ++ lit ". " ++ status_marker (todo_status todo) ++ lit " "
         ++ todo_content todo ++ lit " (" ++ todo_status todo ++ lit ")") ∧
  status_marker (lit "pending") = [9203%N] ∧
  status_marker (lit "in_progress") = [128260%N] ∧
  status_marker (lit "completed") = [9989%N] ∧
  (∀ status,
     status ∉ [lit "pending"; lit "in_progress"; lit "completed"] →
     status_marker status = [10067%N]) ∧
  NoDup [[9203%N]; [128260%N]; [9989%N]; [10067%N]].
Proof.
  intros items. split; [| split; [| split]].
  - intros Hnil. unfold read_todos. fold items. by rewrite Hnil.
  - intros Hne. unfold read_todos. fold items.
    destruct items as [|todo rest] eqn:Hitems; [done |]. rewrite <- Hitems.
    assert (Hne' : imap (fun k t => todo_entry (1 + Z.of_nat k) t) items ≠ []).
    { rewrite Hitems. done. }
    rewrite read_todos_loop_spec.
    replace (imap (fun k t => todo_entry (1 + Z.of_nat k) t ++ [LF]) items)
      with ((fun e => e ++ [LF])
              <$> imap (fun k t => todo_entry (1 + Z.of_nat k) t) items)
      by (by rewrite fmap_imap).
    rewrite (concat_lines_join _ Hne').
    destruct (join_last [LF] 41%N _ Hne') as [y Hy].
    { apply Forall_forall. intros e He.
      apply elem_of_lookup_imap in He as (k & t & -> & _).
      apply todo_entry_last. }
    rewrite Hy.
    change todo_header with (67%N :: lit "urrent TODO List:").
    replace (((67%N :: lit "urrent TODO List:") ++ [LF]) ++ (y ++ [41%N]) ++ [LF])
      with (67%N :: (lit "urrent TODO List:" ++ [LF] ++ y) ++ [41%N; LF])
      by (simpl; rewrite <- !app_assoc; reflexivity).
    rewrite strip_final_newline by reflexivity.
    simpl. rewrite <- ?app_assoc. reflexivity.
  - intros i todo. unfold todo_entry. by rewrite status_emoji_get.
  - split; [reflexivity |]. split; [reflexivity |]. split; [reflexivity |].
    split.
    + intros status Hnot. unfold status_marker.
      repeat case_decide; try reflexivity; subst; exfalso; apply Hnot;
        rewrite !elem_of_cons; tauto.
    + apply (bool_decide_unpack _). by vm_compute.
Qed.

End TodoStore.

(** ** Delegation *)

Section Delegation.

Variable repr_str : str -> str.

Implicit Types agents : pydict Agent.
Implicit Types description subagent_type tool_call_id name : str.
Implicit Types state result : DeepAgentState.

Lemma dict_get_None {V} (d : pydict V) (k : str) :
  dict_get d k = None ↔ k ∉ dict_keys d.
Proof.
  unfold dict_keys. induction d as [|[k' v] d IH]; simpl.
  - split; [intros _; apply not_elem_of_nil | done].
  - rewrite not_elem_of_cons. destruct (decide (k = k')) as [->|Hne].
    + split; [done | by intros [? _]].
    + rewrite IH. tauto.
Qed.

Lemma dict_keys_set {V} (d : pydict V) (k : str) (v : V) (k' : str) :
  k' ∈ dict_keys (dict_set d k v) ↔ k' = k ∨ k' ∈ dict_keys d.
Proof.
  unfold dict_keys. induction d as [|[k0 v0] d IH]; simpl.
  - rewrite list_elem_of_singleton. split; [by left | intros [?|H]; [done |]].
    by apply elem_of_nil in H.
  - destruct (decide (k = k0)) as [->|Hne]; simpl.
    + rewrite elem_of_cons. tauto.
    + rewrite !elem_of_cons, IH. tauto.
Qed.

Lemma occurs_in_join (sep x : str) (parts : list str) :
  x ∈ parts → occurs_in x (join sep parts).
Proof.
  induction parts as [|p [|q rest] IH]; intros Hx.
  - by apply elem_of_nil in Hx.
  - apply list_elem_of_singleton in Hx as ->.
    exists [], []. simpl. by rewrite app_nil_r.
  - rewrite join_cons2. apply elem_of_cons in Hx as [->|Hx].
    + by exists [], (sep ++ join sep (q :: rest)).
    + destruct (IH Hx) as (before & after & ->).
      exists (p ++ sep ++ before), after. by rewrite <- !app_assoc.
Qed.

Lemma occurs_in_app (x before s after : str) :
  occurs_in x s → occurs_in x (before ++ s ++ after).
Proof.
  intros (b & a & ->). exists (before ++ b), (a ++ after).
  by rewrite <- !app_assoc.
Qed.

(** Every sub-agent of the configuration is a key of the agents built. *)
Lemma create_agents_keys {Tool} (tool_name : Tool -> str)
    (create_react_agent : str -> list Tool -> Agent)
    (tools : list Tool) (subagents : list SubAgent) :
  ∀ agents agents',
    create_agents tool_name create_react_agent tools subagents agents
      = Return agents' →
    ∀ name, name ∈ dict_keys agents ∨ name ∈ sa_name <$> subagents →
            name ∈ dict_keys agents'.
Proof.
  induction subagents as [|a rest IH]; intros agents agents'; simpl.
  - intros [= <-] name [H|H]; [done | by apply elem_of_nil in H].
  - destruct (match sa_tools a with
              | Some names => lookup_tools (tools_by_name tool_name tools) names
              | None => Return tools
              end) as [ts|e]; simpl; [| done].
    intros Hrest name Hname. apply (IH _ _ Hrest).
    rewrite dict_keys_set. rewrite elem_of_cons in Hname. tauto.
Qed.

(** C3. On a name that is not a key of [agents], [task] returns a text, not
    a command, and leaves the injected state as it was; the text lists,
    between brackets and in the order of the registry, the [repr] of every
    registered name between backquotes. *)
Theorem task_unknown_subagent agents description subagent_type state tool_call_id :
  subagent_type ∉ dict_keys agents →
  task repr_str agents description subagent_type state tool_call_id
    = (state, Return (Text (unknown_agent_error repr_str agents subagent_type))) ∧
  unknown_agent_error repr_str agents subagent_type
    = lit "Error: invoked agent of type " ++ subagent_type
        ++ lit ", the only allowed types are "
        ++ lit "["
        ++ join (lit ", ")
             ((fun k => repr_str (lit "`" ++ k ++ lit "`")) <$> dict_keys agents)
        ++ lit "]" ∧
  (∀ name, name ∈ dict_keys agents →
     occurs_in (repr_str (lit "`" ++ name ++ lit "`"))
               (unknown_agent_error repr_str agents subagent_type)).
Proof.
  intros Hnot. apply dict_get_None in Hnot.
  assert (Htext : unknown_agent_error repr_str agents subagent_type
    = lit "Error: invoked agent of type " ++ subagent_type
        ++ lit ", the only allowed types are "
        ++ lit "["
        ++ join (lit ", ")
             ((fun k => repr_str (lit "`" ++ k ++ lit "`")) <$> dict_keys agents)
        ++ lit "]").
  { unfold unknown_agent_error, str_of_list, backquoted.
    rewrite <- list_fmap_compose. reflexivity. }
  split; [| split; [exact Htext |]].
  - unfold task. by rewrite Hnot.
  - intros name Hname. rewrite Htext.
    rewrite !(app_assoc _ _ (join _ _ ++ _)).
    apply occurs_in_app, occurs_in_join.
    by apply (list_elem_of_fmap_2 (fun k => repr_str (lit "`" ++ k ++ lit "`"))).
Qed.

(** C2. On a registered name, [task] runs the sub-agent on a state whose
    messages are the one user turn with the task description for content,
    and whose todos and files are the parent's. When that run ends in
    [result] with a last message [final], [task] returns a command that
    carries the files of [result], no todos, and one tool message whose
    content is the content of [final] and whose call id is the one given;
    folded into the parent state, the command leaves the todos and the
    earlier messages as they were, adds that one message, and merges the
    files by the merge rule. *)
Theorem task_delegation_frame agents description subagent_type state tool_call_id
    (sub_agent : Agent) result (final : Message) :
  let turn :=
    {| msg_role := lit "user"; msg_content := description;
       msg_tool_call_id := None |} in
  let invoked :=
    {| messages := [turn]; todos := todos state; files := files state |} in
  let reply :=
    {| msg_role := lit "tool"; msg_content := msg_content final;
       msg_tool_call_id := Some tool_call_id |} in
  let delta :=
    {| u_files := Some (default ∅ (files result));
       u_todos := None;
       u_messages := Some [reply] |} in
  let parent' := apply_update state delta in
  dict_get agents subagent_type = Some sub_agent →
  sub_agent invoked = Return result →
  last (messages result) = Some final →
  task repr_str agents description subagent_type state tool_call_id
    = (invoked, Return (Cmd delta)) ∧
  messages parent' = messages state ++ [reply] ∧
  length (messages parent') = S (length (messages state)) ∧
  todos parent' = todos state ∧
  files parent' = file_reducer (files state) (Some (default ∅ (files result))).
Proof.
  intros turn invoked reply delta parent' Hreg Hrun Hlast.
  split; [| split; [reflexivity | split; [| done]]].
  - unfold task. rewrite Hreg.
    change (isolated state description) with invoked.
    rewrite Hrun. simpl. by rewrite getitem_last, Hlast.
  - subst parent' delta. simpl. unfold add_messages.
    rewrite length_app. simpl. lia.
Qed.

End Delegation.

(** ** Concrete runs *)

Lemma read_file_slice_witness :
  read_file (lit "notes.md") notes_state 2 2000
    = Return (lit "     3" ++ [TAB] ++ lit "gamma") ∧
  read_file (lit "notes.md") notes_state 3 2000
    = Return (lit "Error: Line offset 3 exceeds file length (3 lines)").
Proof.
  destruct (read_file_slice (lit "notes.md") notes_state three_lines 2 2000)
    as (_ & Hlast & _); [vm_compute; reflexivity | discriminate | lia |].
  destruct (read_file_slice (lit "notes.md") notes_state three_lines 3 2000)
    as (Herr & _); [vm_compute; reflexivity | discriminate | lia |].
  split.
  - rewrite Hlast by (vm_compute; reflexivity). vm_compute. reflexivity.
  - rewrite Herr by (vm_compute; discriminate). vm_compute. reflexivity.
Defined.

Lemma read_file_negative_offset_witness :
  read_file (lit "notes.md") notes_state (-2) 5
    = Return (join [LF] [ lit "    -1" ++ [TAB] ++ lit "beta";
                          lit "     0" ++ [TAB] ++ lit "gamma";
                          lit "     1" ++ [TAB] ++ lit "alpha";
                          lit "     2" ++ [TAB] ++ lit "beta";
                          lit "     3" ++ [TAB] ++ lit "gamma" ]).
Proof.
  destruct (read_file_negative_offset (lit "notes.md") notes_state three_lines (-2) 5)
    as (Hread & _);
    [vm_compute; reflexivity | discriminate
    | vm_compute; split; [discriminate | reflexivity]
    | vm_compute; discriminate |].
  rewrite Hread. vm_compute. reflexivity.
Defined.

Lemma task_unknown_subagent_witness :
  task repr_plain registry (lit "do X") (lit "nonexistent") parent_state (lit "call_7")
    = (parent_state,
       Return (Text (lit "Error: invoked agent of type nonexistent, the only allowed types are ['`research-agent`']"))).
Proof.
  destruct (task_unknown_subagent repr_plain registry (lit "do X") (lit "nonexistent")
              parent_state (lit "call_7")) as (Htask & _).
  - vm_compute. intros H. apply (proj1 (list_elem_of_singleton _ _)) in H.
    discriminate.
  - rewrite Htask. reflexivity.
Defined.

Lemma task_delegation_frame_witness :
  ∃ delta,
    task repr_plain registry (lit "find Y") (lit "research-agent") parent_state
         (lit "call_7")
    = ({| messages := [ mkMessage (lit "user") (lit "find Y") None ];
          todos := todos parent_state;
          files := files parent_state |},
       Return (Cmd delta)) ∧
    u_messages delta
      = Some [ mkMessage (lit "tool") (lit "found Y") (Some (lit "call_7")) ] ∧
    messages (apply_update parent_state delta)
      = messages parent_state
          ++ [ mkMessage (lit "tool") (lit "found Y") (Some (lit "call_7")) ] ∧
    todos (apply_update parent_state delta) = todos parent_state ∧
    files (apply_update parent_state delta)
      = Some {[ lit "plan.md" := lit "step 1"; lit "result_ab12cd34.md" := lit "Y" ]}.
Proof.
  destruct (task_delegation_frame repr_plain registry (lit "find Y")
              (lit "research-agent") parent_state (lit "call_7") research_agent
              (research_agent_run
                 (mkState [ mkMessage (lit "user") (lit "find Y") None ]
                          (todos parent_state) (files parent_state)))
              (mkMessage (lit "ai") (lit "found Y") None))
    as (Htask & Hmsgs & _ & Htodos & Hfiles);
    [reflexivity | reflexivity | reflexivity |].
  eexists. split; [exact Htask |]. split; [reflexivity |].
  split; [exact Hmsgs |]. split; [exact Htodos |].
  rewrite Hfiles. vm_compute. reflexivity.
Defined.

(** The TODO example of the specification: two todos written, then read. *)
Example read_todos_two_entries (repr_todos : list Todo -> str) :
  let delta := write_todos repr_todos
                 [ mkTodo (lit "a") (lit "pending");
                   mkTodo (lit "b") (lit "completed") ] (lit "call_1") in
  read_todos (apply_update empty_state delta) (lit "call_2")
  = lit "Current TODO List:" ++ [LF]
      ++ lit "1. " ++ [9203%N] ++ lit " a (pending)" ++ [LF]
      ++ lit "2. " ++ [9989%N] ++ lit " b (completed)".
Proof. reflexivity. Qed.

(** The empty-file example of the specification. *)
Example read_file_after_empty_write state tool_call_id offset limit :
  read_file (lit "e.md")
    (apply_update state (wr_command (write_file (lit "e.md") [] state tool_call_id)))
    offset limit
  = Return empty_file_notice.
Proof.
  destruct (write_file_lookup (lit "e.md") [] state tool_call_id)
    as (fs & Hfs & He & _).
  apply read_file_empty. by rewrite Hfs.
Qed.

(** The end-to-end scenario of the specification: a todo is written, the
    research agent is delegated to and writes its file; the parent then has
    the file, and its todos read as before. *)
Example delegation_end_to_end (repr_todos : list Todo -> str) :
  let todo := mkTodo (lit "research topic") (lit "in_progress") in
  let s1 := apply_update empty_state (write_todos repr_todos [todo] (lit "call_1")) in
  ∃ delta,
    (task repr_plain registry (lit "research topic") (lit "research-agent") s1
       (lit "call_2")).2 = Return (Cmd delta) ∧
    let s2 := apply_update s1 delta in
    default ∅ (files s2) !! lit "result_ab12cd34.md" = Some (lit "Y") ∧
    todos s2 = Some [todo] ∧
    read_todos s2 (lit "call_3") = read_todos s1 (lit "call_3") ∧
    length (messages s2) = S (length (messages s1)).
Proof.
  eexists. split; [reflexivity |]. simpl.
  split; [by vm_compute |]. done.
Qed.

(** * Further properties of the code *)

(** ** [splitlines] *)

Section SplitLines.

Implicit Types s cur line : str.

Lemma splitlines_from_free s :
  boundary_free s →
  ∀ cur, splitlines_from cur s = match cur ++ s with [] => [] | _ => [cur ++ s] end.
Proof.
  induction 1 as [|c s Hc _ IH]; intros cur; simpl.
  - by rewrite app_nil_r.
  - rewrite Hc, IH, <- app_assoc. reflexivity.
Qed.

Lemma splitlines_from_line s rest :
  boundary_free s →
  ∀ cur, splitlines_from cur (s ++ LF :: rest) = (cur ++ s) :: splitlines_from [] rest.
Proof.
  induction 1 as [|c s Hc _ IH]; intros cur; simpl.
  - rewrite app_nil_r. by destruct rest.
  - rewrite Hc, IH, <- app_assoc. reflexivity.
Qed.

(** Lines joined by newlines split back into the same lines, provided no
    line holds a boundary and the last line is not empty. *)
Lemma splitlines_join (lines : list str) :
  Forall boundary_free lines →
  last lines ≠ Some [] →
  splitlines (join [LF] lines) = lines.
Proof.
  unfold splitlines.
  induction lines as [|l [|l' rest] IH]; intros Hfree Hlast; [done | |].
  - simpl. rewrite splitlines_from_free by (by inversion Hfree).
    simpl. destruct l; [done | reflexivity].
  - rewrite join_cons2. simpl app.
    inversion Hfree as [|? ? Hl Hrest]; subst.
    rewrite splitlines_from_line by done. simpl app.
    f_equal. apply IH; [done |]. by rewrite last_cons_cons in Hlast.
Qed.

(** No line of [splitlines] holds a line boundary. *)
Lemma splitlines_from_boundary_free (n : nat) :
  ∀ s cur, (length s ≤ n)%nat → boundary_free cur →
           Forall boundary_free (splitlines_from cur s).
Proof.
  induction n as [|n IH]; intros s cur Hlen Hcur.
  - destruct s; [| simpl in Hlen; lia]. simpl.
    destruct cur; [constructor | constructor; [exact Hcur | constructor]].
  - destruct s as [|c rest]; simpl.
    { destruct cur; [constructor | constructor; [exact Hcur | constructor]]. }
    simpl in Hlen. destruct (is_linebreak c) eqn:Hc.
    + constructor; [done |].
      destruct rest as [|c2 rest2]; [constructor |].
      destruct (bool_decide (c = CR) && bool_decide (c2 = LF)).
      * apply IH; [simpl in Hlen; lia | constructor].
      * apply IH; [lia | constructor].
    + apply IH; [lia |]. apply Forall_app. by repeat constructor.
Qed.

Lemma splitlines_boundary_free s : Forall boundary_free (splitlines s).
Proof. apply (splitlines_from_boundary_free (length s)); [done | constructor]. Qed.

Lemma splitlines_nonempty s : s ≠ [] → splitlines s ≠ [].
Proof.
  unfold splitlines. destruct s as [|c rest]; [done |]. intros _. simpl.
  destruct (is_linebreak c); [done |].
  assert (H : ∀ t cur, cur ≠ [] → splitlines_from cur t ≠ []).
  { clear. intros t. induction t as [|c t IH]; intros cur Hcur; simpl.
    - by destruct cur.
    - destruct (is_linebreak c); [done |]. apply IH. by destruct cur. }
  by apply H.
Qed.

End SplitLines.

(** ** More on the virtual file store *)

Section FileStoreMore.

Implicit Types file_path content tool_call_id : str.
Implicit Types state : DeepAgentState.
Implicit Types offset limit : Z.

Lemma files_after_write_file file_path content state tool_call_id :
  files (after_write_file file_path content state tool_call_id)
  = Some (<[file_path := content]> (default ∅ (files state))).
Proof.
  unfold after_write_file. simpl. destruct (files state) as [f|]; simpl; [| done].
  f_equal. rewrite <- insert_union_l. by rewrite (idemp_L (∪)).
Qed.

Lemma elem_of_ls state file_path :
  file_path ∈ ls state ↔ is_Some (default ∅ (files state) !! file_path).
Proof.
  unfold ls. rewrite list_elem_of_fmap. split.
  - intros ([k v] & -> & Hin). apply elem_of_map_to_list in Hin. by exists v.
  - intros [v Hv]. exists (file_path, v). split; [done |].
    by apply elem_of_map_to_list.
Qed.

(** X1. [ls] lists every key of [files] once, and nothing on a state
    without files; a path is listed exactly when [read_file] does not
    answer with the not-found text. *)
Theorem ls_lists_the_readable_paths state file_path offset limit :
  NoDup (ls state) ∧
  (files state = None ∨ files state = Some ∅ → ls state = []) ∧
  (file_path ∈ ls state
     ↔ read_file file_path state offset limit ≠ Return (not_found_error file_path)).
Proof.
  split; [apply NoDup_fst_map_to_list |]. split.
  - unfold ls. intros [-> | ->]; simpl; by rewrite map_to_list_empty.
  - rewrite elem_of_ls. split.
    + intros [content H]. by apply (read_file_present_not_not_found _ _ content).
    + intros Hne. destruct (default ∅ (files state) !! file_path) eqn:H; [eauto |].
      by rewrite (read_file_absent _ _ _ _ H) in Hne.
Qed.

(** X2. After a [write_file] the listing holds the path written and,
    besides it, exactly the paths it held before. *)
Theorem write_file_then_ls file_path content state tool_call_id (p : str) :
  p ∈ ls (after_write_file file_path content state tool_call_id)
    ↔ p = file_path ∨ p ∈ ls state.
Proof.
  rewrite !elem_of_ls, files_after_write_file. simpl.
  destruct (decide (p = file_path)) as [->|Hne].
  - rewrite lookup_insert_eq. split; [by left | eauto].
  - rewrite lookup_insert_ne by done. split; [by right | by intros [?|?]].
Qed.

(** X3. Two writes in a row: on one path the second content stays; on two
    paths the order of the writes does not matter for the files. *)
Theorem write_file_twice p1 c1 id1 p2 c2 id2 state :
  let both := after_write_file p2 c2 (after_write_file p1 c1 state id1) id2 in
  (p1 = p2 → files both = files (after_write_file p2 c2 state id2)) ∧
  (p1 ≠ p2 →
     files both
     = files (after_write_file p1 c1 (after_write_file p2 c2 state id2) id1)).
Proof.
  cbv zeta. rewrite !files_after_write_file. simpl. split.
  - intros ->. by rewrite insert_insert_eq.
  - intros Hne. f_equal. by apply insert_insert_ne.
Qed.

(** X4. [write_file] updates in place the dictionary it finds under
    [files]: the injected state then holds the files the command will
    give, and folding the command into it changes nothing more; with no
    [files] key the injected state stays as it was and the write shows
    only in the command. *)
Theorem write_file_in_place file_path content state tool_call_id :
  let r := write_file file_path content state tool_call_id in
  (is_Some (files state) →
     files (wr_state r) = files (apply_update state (wr_command r))) ∧
  (files state = None → wr_state r = state) ∧
  files (apply_update (wr_state r) (wr_command r))
    = files (apply_update state (wr_command r)) ∧
  messages (wr_state r) = messages state ∧
  todos (wr_state r) = todos state.
Proof.
  assert (Hunion : ∀ f : gmap str str,
            <[file_path := content]> f ∪ f = <[file_path := content]> f).
  { intros f. rewrite <- insert_union_l. by rewrite (idemp_L (∪)). }
  cbv zeta. unfold write_file, apply_update. simpl.
  destruct (files state) as [f|] eqn:Hf; simpl.
  - rewrite Hunion. split; [done |]. split; [done |]. split; [| done].
    by rewrite (idemp_L (∪)).
  - rewrite Hf. split; [by intros [? ?] |]. done.
Qed.

Lemma numbered_line_row i line : numbered_line i line = numbered_row (i + 1) line.
Proof. reflexivity. Qed.

Lemma read_file_from_start file_path state content offset limit :
  default ∅ (files state) !! file_path = Some content →
  content ≠ [] →
  0 ≤ offset < Z.of_nat (length (splitlines content)) →
  read_file file_path state offset limit
  = Return (join [LF]
      (imap (fun k line => numbered_row (offset + Z.of_nat k + 1) line)
         (take (Z.to_nat (Z.min limit (Z.of_nat (length (splitlines content)) - offset)))
               (drop (Z.to_nat offset) (splitlines content))))).
Proof.
  intros H Hne Hoff. rewrite (read_file_present _ _ _ _ _ H Hne). cbv zeta.
  destruct (Z.geb_spec offset (Z.of_nat (length (splitlines content)))); [lia |].
  unfold range. rewrite seqZ_to_nat.
  rewrite <- (Z2Nat.id offset) at 1 by lia.
  rewrite read_file_loop_nonneg by lia. simpl. do 2 f_equal.
  replace (Z.min (offset + limit) (Z.of_nat (length (splitlines content))) - offset)
    with (Z.min limit (Z.of_nat (length (splitlines content)) - offset)) by lia.
  apply imap_ext. intros k line _. simpl. rewrite numbered_line_row.
  f_equal. lia.
Qed.

Lemma string_of_uint_digits d :
  Forall (fun c => (48 ≤ c ≤ 57)%N) (lit (NilEmpty.string_of_uint d)).
Proof.
  induction d; simpl NilEmpty.string_of_uint; [constructor | ..];
    (rewrite lit_cons; constructor; [vm_compute; split; discriminate | done]).
Qed.

Lemma str_of_int_chars n :
  Forall (fun c => c = 45%N ∨ (48 ≤ c ≤ 57)%N) (str_of_int n).
Proof.
  assert (Hu : ∀ d, Forall (fun c => c = 45%N ∨ (48 ≤ c ≤ 57)%N)
                      (lit (NilZero.string_of_uint d))).
  { intros d. eapply Forall_impl; [| by intros c Hc; right; exact Hc].
    destruct d; try apply string_of_uint_digits.
    constructor; [vm_compute; split; discriminate | constructor]. }
  unfold str_of_int. destruct (Z.to_int n) as [d|d]; simpl; [apply Hu |].
  constructor; [by left | apply Hu].
Qed.

Lemma numbered_row_no_newline number line :
  boundary_free line → LF ∉ numbered_row number line.
Proof.
  intros Hline. unfold numbered_row, format_6d, spaces.
  rewrite !not_elem_of_app. split; [split |]; [| | split].
  - intros Hin. by apply list_elem_of_In, repeat_spec in Hin.
  - intros Hin. pose proof (str_of_int_chars number) as Hall.
    rewrite Forall_forall in Hall. destruct (Hall _ Hin) as [?|?]; [done | unfold LF in *; lia].
  - by intros ?%list_elem_of_singleton.
  - intros Hin. apply Forall_take with (n := 2000%nat) in Hline.
    rewrite Forall_forall in Hline. by specialize (Hline _ Hin).
Qed.

(** X5. From an offset inside the file [read_file] returns
    [min(limit, n - offset)] rows (none when the limit is not positive),
    none of which holds a newline: the limit bounds the number of lines
    of the text returned. *)
Theorem read_file_row_count file_path state content offset limit :
  default ∅ (files state) !! file_path = Some content →
  content ≠ [] →
  0 ≤ offset < Z.of_nat (length (splitlines content)) →
  ∃ rows,
    read_file file_path state offset limit = Return (join [LF] rows) ∧
    Z.of_nat (length rows)
      = Z.max 0 (Z.min limit (Z.of_nat (length (splitlines content)) - offset)) ∧
    Forall (fun row => LF ∉ row) rows.
Proof.
  intros H Hne Hoff. eexists. split; [by apply read_file_from_start |]. split.
  - rewrite length_imap, length_take, length_drop. lia.
  - apply Forall_forall. intros row Hrow.
    apply elem_of_lookup_imap in Hrow as (k & line & -> & Hline).
    apply numbered_row_no_newline.
    pose proof (splitlines_boundary_free content) as Hall.
    eapply Forall_drop, Forall_take in Hall.
    rewrite Forall_forall in Hall. apply Hall.
    by eapply list_elem_of_lookup_2.
Qed.

(** X6. With a limit that is not positive, [read_file] on a non-empty
    file returns the empty text for every offset below the number of
    lines, the offsets below [-n] included: no line is indexed. *)
Theorem read_file_nonpositive_limit file_path state content offset limit :
  default ∅ (files state) !! file_path = Some content →
  content ≠ [] →
  offset < Z.of_nat (length (splitlines content)) →
  limit ≤ 0 →
  read_file file_path state offset limit = Return [].
Proof.
  intros H Hne Hoff Hlim. rewrite (read_file_present _ _ _ _ _ H Hne). cbv zeta.
  destruct (Z.geb_spec offset (Z.of_nat (length (splitlines content)))); [lia |].
  unfold range. by rewrite seqZ_nil by lia.
Qed.

(** X7. Lines written joined by newlines read back as those lines, in order,
    numbered from 1 and cut to 2000 characters each, when no line holds a
    line boundary, the last line is not empty and the limit covers them. *)
Theorem write_file_then_read_file file_path (lines : list str) state
    tool_call_id limit :
  Forall boundary_free lines →
  last lines ≠ Some [] →
  lines ≠ [] →
  Z.of_nat (length lines) ≤ limit →
  read_file file_path
    (after_write_file file_path (join [LF] lines) state tool_call_id) 0 limit
  = Return (join [LF] (imap (fun k line => numbered_row (Z.of_nat k + 1) line) lines)).
Proof.
  intros Hfree Hlast Hne Hlim.
  pose proof (splitlines_join lines Hfree Hlast) as Hsplit.
  assert (Hcontent : join [LF] lines ≠ []).
  { intros Hnil. rewrite Hnil in Hsplit. by rewrite <- Hsplit in Hne. }
  assert (Hlen : (0 < length lines)%nat) by (destruct lines; [done | simpl; lia]).
  rewrite (read_file_from_start _ _ (join [LF] lines));
    [| by rewrite files_after_write_file; simpl; rewrite lookup_insert_eq
     | done | rewrite Hsplit; lia].
  rewrite Hsplit. do 2 f_equal. change (Z.to_nat 0) with 0%nat. rewrite drop_0.
  rewrite take_ge by lia. apply imap_ext. intros k line _. simpl. f_equal.
Qed.

End FileStoreMore.

(** ** More on the merge rule *)

Section MergeRuleMore.

Implicit Types A B : option (gmap str str).
Implicit Types a b : gmap str str.

(** X8. Merging the same update a second time changes nothing, and merging
    a mapping with itself gives it back. *)
Theorem file_reducer_idempotent A B :
  file_reducer (file_reducer A B) B = file_reducer A B ∧
  file_reducer A A = A.
Proof.
  split.
  - rewrite file_reducer_assoc. f_equal.
    destruct B as [b|]; simpl; [| done]. by rewrite (idemp_L (∪)).
  - destruct A as [a|]; simpl; [| done]. by rewrite (idemp_L (∪)).
Qed.

(** X9. The merge rule never removes a key: the result has every key of
    either side, and so has the [files] of a state after any update has
    been folded into it. *)
Theorem file_reducer_keeps_keys A B (s : DeepAgentState) (u : Update) :
  dom (default ∅ A) ⊆ dom (default ∅ (file_reducer A B)) ∧
  dom (default ∅ B) ⊆ dom (default ∅ (file_reducer A B)) ∧
  dom (default ∅ (files s)) ⊆ dom (default ∅ (files (apply_update s u))).
Proof.
  assert (Hl : ∀ A B, dom (default ∅ A) ⊆ dom (default ∅ (file_reducer A B))).
  { intros [a|] [b|]; simpl; rewrite ?dom_union_L, ?dom_empty_L; set_solver. }
  split; [apply Hl |]. split.
  - destruct A as [a|], B as [b|]; simpl; rewrite ?dom_union_L, ?dom_empty_L;
      set_solver.
  - unfold apply_update. simpl. destruct (u_files u); [apply Hl | done].
Qed.

(** X10. The merge of two mappings does not depend on which one is the
    base exactly when they give the same content to the keys they
    share. *)
Theorem file_reducer_commutes_iff a b :
  file_reducer (Some a) (Some b) = file_reducer (Some b) (Some a)
  ↔ ∀ k v w, a !! k = Some v → b !! k = Some w → v = w.
Proof.
  simpl. split.
  - intros [= Heq] k v w Ha Hb.
    assert (Hba : (b ∪ a) !! k = Some w) by (by apply lookup_union_Some_l).
    assert (Hab : (a ∪ b) !! k = Some v) by (by apply lookup_union_Some_l).
    rewrite Heq in Hba. congruence.
  - intros Hagree. f_equal. apply map_eq. intros k.
    rewrite !lookup_union.
    destruct (a !! k) as [v|] eqn:Ha, (b !! k) as [w|] eqn:Hb; cbn; try done.
    f_equal. symmetry. by eapply Hagree.
Qed.

End MergeRuleMore.

(** ** More on the TODO store *)

Section TodoStoreMore.

Implicit Types todos : list Todo.
Implicit Types state : DeepAgentState.

Lemma join_cons_ne (sep p : str) (rest : list str) :
  rest ≠ [] → join sep (p :: rest) = p ++ sep ++ join sep rest.
Proof. by destruct rest. Qed.

Lemma read_todos_nonempty state tool_call_id :
  default [] (todos state) ≠ [] →
  read_todos state tool_call_id
  = join [LF] (todo_header
               :: imap (fun k todo => todo_entry (1 + Z.of_nat k) todo)
                       (default [] (todos state))).
Proof.
  intros Hne. unfold read_todos. cbv zeta.
  destruct (default [] (todos state)) as [|todo rest] eqn:Hitems; [done |].
  rewrite <- Hitems. rewrite <- Hitems in Hne.
  set (entries := imap (fun k t => todo_entry (1 + Z.of_nat k) t)
                       (default [] (todos state))).
  assert (Hentries : entries ≠ []) by (subst entries; by rewrite Hitems).
  rewrite read_todos_loop_spec.
  replace (imap (fun k t => todo_entry (1 + Z.of_nat k) t ++ [LF])
                (default [] (todos state)))
    with ((fun e => e ++ [LF]) <$> entries)
    by (subst entries; by rewrite fmap_imap).
  rewrite (concat_lines_join _ Hentries).
  destruct (join_last [LF] 41%N entries Hentries) as [y Hy].
  { apply Forall_forall. intros e He. subst entries.
    apply elem_of_lookup_imap in He as (k & t & -> & _).
    apply todo_entry_last. }
  rewrite (join_cons_ne _ _ _ Hentries), Hy.
  change todo_header with (67%N :: lit "urrent TODO List:").
  replace (((67%N :: lit "urrent TODO List:") ++ [LF]) ++ (y ++ [41%N]) ++ [LF])
    with (67%N :: (lit "urrent TODO List:" ++ [LF] ++ y) ++ [41%N; LF])
    by (simpl; rewrite <- !app_assoc; reflexivity).
  rewrite strip_final_newline by reflexivity.
  simpl. rewrite <- ?app_assoc. reflexivity.
Qed.

Lemma todo_entry_boundary_free i todo :
  boundary_free (todo_content todo) →
  boundary_free (todo_status todo) →
  boundary_free (todo_entry i todo).
Proof.
  intros Hc Hs. unfold todo_entry, boundary_free.
  rewrite !Forall_app. repeat split; try done; try (by repeat constructor).
  - eapply Forall_impl; [apply str_of_int_chars |].
    intros c [-> | Hc']; [done |]. unfold is_linebreak.
    apply bool_decide_eq_false_2. rewrite !elem_of_cons, elem_of_nil. lia.
  - rewrite status_emoji_get. unfold status_marker.
    repeat case_decide; by repeat constructor.
Qed.

(** X11. When no content and no status holds a line boundary, the lines of
    the text [read_todos] returns are the header and then one line per
    todo, in order: the listing has one line more than there are todos. *)
Theorem read_todos_lines state tool_call_id :
  default [] (todos state) ≠ [] →
  Forall (fun todo => boundary_free (todo_content todo)
                      ∧ boundary_free (todo_status todo))
         (default [] (todos state)) →
  splitlines (read_todos state tool_call_id)
    = todo_header :: imap (fun k todo => todo_entry (1 + Z.of_nat k) todo)
                          (default [] (todos state)) ∧
  length (splitlines (read_todos state tool_call_id))
    = S (length (default [] (todos state))).
Proof.
  intros Hne Hfree.
  assert (Hsplit : splitlines (read_todos state tool_call_id)
    = todo_header :: imap (fun k todo => todo_entry (1 + Z.of_nat k) todo)
                          (default [] (todos state))).
  { rewrite read_todos_nonempty by done. apply splitlines_join.
    - constructor; [by apply (bool_decide_unpack _); vm_compute |].
      apply Forall_forall. intros e He.
      apply elem_of_lookup_imap in He as (k & t & -> & Ht).
      apply list_elem_of_lookup_2 in Ht. rewrite Forall_forall in Hfree.
      destruct (Hfree _ Ht). by apply todo_entry_boundary_free.
    - intros Hlast.
      apply (last_cons_Some_ne todo_header []) in Hlast; [| done].
      apply last_Some_elem_of in Hlast.
      apply elem_of_lookup_imap in Hlast as (k & t & Heq & _).
      destruct (todo_entry_last (1 + Z.of_nat k) t) as [x Hx].
      rewrite Hx in Heq. by destruct x. }
  split; [exact Hsplit |]. rewrite Hsplit. simpl. by rewrite length_imap.
Qed.

(** X12. [write_todos] replaces the list wholesale: after it the state
    holds the list written, whatever it held, with the files untouched and
    one message more; [read_todos] then renders the list written, header
    first and one numbered entry per todo, and an empty list written reads
    as no todos. *)
Theorem write_todos_then_read_todos (repr_todos : list Todo -> str)
    (written : list Todo) state tool_call_id tool_call_id' :
  let state' := apply_update state (write_todos repr_todos written tool_call_id) in
  todos state' = Some written ∧
  files state' = files state ∧
  length (messages state') = S (length (messages state)) ∧
  (written ≠ [] →
     read_todos state' tool_call_id'
     = join [LF] (todo_header
                  :: imap (fun k todo => todo_entry (1 + Z.of_nat k) todo) written)) ∧
  (written = [] → read_todos state' tool_call_id' = no_todos_message).
Proof.
  cbv zeta. split; [done |]. split; [done |]. split.
  - simpl. unfold add_messages. rewrite length_app. simpl. lia.
  - split.
    + intros Hne. by rewrite read_todos_nonempty.
    + by intros ->.
Qed.

End TodoStoreMore.

(** ** Insertion-ordered dictionaries *)

Section PyDict.

Context {V : Type}.

Implicit Types d : pydict V.
Implicit Types k : str.

Lemma dict_get_set d k v k' :
  dict_get (dict_set d k v) k' = if decide (k' = k) then Some v else dict_get d k'.
Proof.
  induction d as [|[k0 v0] d IH]; simpl.
  - by destruct (decide (k' = k)).
  - destruct (decide (k = k0)) as [->|Hne]; simpl.
    + by destruct (decide (k' = k0)).
    + rewrite IH. destruct (decide (k' = k0)) as [->|?]; [| done].
      by destruct (decide (k0 = k)).
Qed.

Lemma dict_get_is_Some d k : is_Some (dict_get d k) ↔ k ∈ dict_keys d.
Proof.
  unfold dict_keys. induction d as [|[k0 v0] d IH]; simpl.
  - rewrite elem_of_nil. split; [by intros [? ?] | done].
  - rewrite elem_of_cons. destruct (decide (k = k0)) as [->|Hne].
    + split; [by left | eauto].
    + rewrite IH. tauto.
Qed.

Lemma dict_set_keys d k v k' :
  k' ∈ dict_keys (dict_set d k v) ↔ k' = k ∨ k' ∈ dict_keys d.
Proof.
  rewrite <- !dict_get_is_Some, dict_get_set.
  destruct (decide (k' = k)); [split; eauto | split; [by right | by intros [?|?]]].
Qed.

Lemma dict_set_NoDup d k v :
  NoDup (dict_keys d) → NoDup (dict_keys (dict_set d k v)).
Proof.
  induction d as [|[k0 v0] d IH]; simpl.
  - intros _. apply NoDup_singleton.
  - unfold dict_keys. simpl. rewrite NoDup_cons. intros [Hk0 Hd].
    destruct (decide (k = k0)) as [->|Hne]; simpl.
    + by apply NoDup_cons.
    + apply NoDup_cons. split; [| by apply IH].
      intros Hin. apply (dict_set_keys d k v k0) in Hin as [?|?]; [by subst | done].
Qed.

Lemma dict_fill_NoDup {X} (key : X -> str) (val : X -> V) xs :
  ∀ d, NoDup (dict_keys d) → NoDup (dict_keys (dict_fill key val d xs)).
Proof.
  unfold dict_fill. induction xs as [|x xs IH]; intros d Hd; simpl; [done |].
  by apply IH, dict_set_NoDup.
Qed.

Lemma dict_fill_keys {X} (key : X -> str) (val : X -> V) xs :
  ∀ d k, k ∈ dict_keys (dict_fill key val d xs)
         ↔ k ∈ dict_keys d ∨ k ∈ key <$> xs.
Proof.
  unfold dict_fill. induction xs as [|x xs IH]; intros d k; simpl.
  - rewrite elem_of_nil. tauto.
  - rewrite IH, dict_set_keys, elem_of_cons. tauto.
Qed.

(** The last assignment to a key is the one that stays. *)
Lemma dict_fill_get {X} (key : X -> str) (val : X -> V) xs :
  ∀ d k, dict_get (dict_fill key val d xs) k
         = match last (filter (fun x => key x = k) xs) with
           | Some x => Some (val x)
           | None => dict_get d k
           end.
Proof.
  unfold dict_fill. induction xs as [|x xs IH] using rev_ind; intros d k; [done |].
  rewrite foldl_snoc, dict_get_set, filter_app, last_app, IH.
  rewrite filter_cons, filter_nil.
  destruct (decide (key x = k)) as [<-|Hne]; simpl.
  - by rewrite decide_True.
  - by rewrite decide_False.
Qed.

End PyDict.

(** ** The agent registry *)

Section AgentRegistry.

Context {Tool : Type}.
Variable tool_name : Tool -> str.
Variable create_react_agent : str -> list Tool -> Agent.
Variable tools : list Tool.

Implicit Types subagents : list SubAgent.
Implicit Types agents : pydict Agent.
Implicit Types names : list str.

Lemma tools_by_name_fill :
  tools_by_name tool_name tools = dict_fill tool_name (fun t => t) [] tools.
Proof. reflexivity. Qed.

Lemma tools_by_name_known (t : str) :
  is_Some (dict_get (tools_by_name tool_name tools) t) ↔ t ∈ tool_name <$> tools.
Proof.
  rewrite dict_get_is_Some, tools_by_name_fill, dict_fill_keys.
  unfold dict_keys. simpl. rewrite elem_of_nil. tauto.
Qed.

Lemma lookup_tools_Return (by_name : pydict Tool) names :
  (∀ t, t ∈ names → is_Some (dict_get by_name t)) →
  ∃ found, lookup_tools by_name names = Return found ∧
           Forall2 (fun n tool_ => dict_get by_name n = Some tool_) names found.
Proof.
  induction names as [|t rest IH]; intros Hall; simpl.
  - exists []. by split.
  - destruct (Hall t) as [tool_ Ht]; [by left |]. rewrite Ht.
    destruct IH as (found & -> & Hfound); [by intros; apply Hall; right |].
    exists (tool_ :: found). split; [done | by constructor].
Qed.

Lemma lookup_tools_Raise (by_name : pydict Tool) names e :
  lookup_tools by_name names = Raise e →
  e = KeyError ∧ ∃ t, t ∈ names ∧ dict_get by_name t = None.
Proof.
  induction names as [|t rest IH]; simpl; [done |].
  destruct (dict_get by_name t) as [tool_|] eqn:Ht.
  - destruct (lookup_tools by_name rest) as [found|e'] eqn:Hrest; simpl; [done |].
    intros [= <-]. destruct (IH eq_refl) as (-> & t' & Hin & Hnone).
    split; [done |]. exists t'. split; [by right | done].
  - intros [= <-]. split; [done |]. exists t. split; [by left | done].
Qed.

(** One sub-agent: its tools resolve, or one of the names is unknown. *)
Lemma agent_tools_outcome (_agent : SubAgent) :
  (∃ found, agent_tools tool_name tools _agent = Return found ∧
     match sa_tools _agent with
     | None => found = tools
     | Some names =>
         Forall2 (fun n tool_ =>
                    last (filter (fun t => tool_name t = n) tools) = Some tool_)
                 names found
     end) ∨
  (agent_tools tool_name tools _agent = Raise KeyError ∧
   names_unknown_tool tool_name tools _agent).
Proof.
  unfold agent_tools, names_unknown_tool.
  destruct (sa_tools _agent) as [names|]; [| left; eauto].
  destruct (lookup_tools (tools_by_name tool_name tools) names) as [found|e] eqn:Hl.
  - left. exists found. split; [done |].
    destruct (lookup_tools_Return (tools_by_name tool_name tools) names)
      as (found' & Hfound' & Hall).
    { intros t Ht. destruct (dict_get (tools_by_name tool_name tools) t) eqn:Hget; [eauto |].
      exfalso. clear -Hl Ht Hget. revert found Hl.
      induction names as [|n rest IH]; intros found; simpl; [by apply elem_of_nil in Ht |].
      apply elem_of_cons in Ht as [<-|Ht]; [by rewrite Hget |].
      destruct (dict_get _ n); [| done].
      destruct (lookup_tools _ rest) eqn:Hrest; simpl; [| done].
      intros _. by eapply IH. }
    rewrite Hl in Hfound'. injection Hfound' as <-.
    eapply Forall2_impl; [exact Hall |]. intros n tool_ Hget. simpl in Hget.
    rewrite tools_by_name_fill, dict_fill_get in Hget.
    by destruct (last (filter (fun t => tool_name t = n) tools)).
  - right. destruct (lookup_tools_Raise _ _ _ Hl) as (-> & t & Hin & Hnone).
    split; [done |]. exists names, t. split; [done |]. split; [done |].
    rewrite <- tools_by_name_known, Hnone. by intros [? ?].
Qed.

Lemma names_unknown_tool_Raise (_agent : SubAgent) :
  names_unknown_tool tool_name tools _agent →
  agent_tools tool_name tools _agent = Raise KeyError.
Proof.
  intros (names & t & Hnames & Hin & Hunknown).
  destruct (agent_tools_outcome _agent) as [(found & Hfound & _)|[? _]]; [| done].
  exfalso. unfold agent_tools in Hfound. rewrite Hnames in Hfound.
  destruct (lookup_tools_Return (tools_by_name tool_name tools) [t])
    as (? & _ & Hall).
  - intros t' ->%list_elem_of_singleton.
    clear -Hfound Hin. revert found Hfound.
    induction names as [|n rest IH]; intros found; simpl; [by apply elem_of_nil in Hin |].
    destruct (dict_get _ n) eqn:Hn; [| done].
    apply elem_of_cons in Hin as [->|Hin]; [eauto |].
    destruct (lookup_tools _ rest) eqn:Hrest; simpl; [| done].
    intros _. by eapply IH.
  - inversion Hall as [|? ? ? ? Hget _]; subst.
    apply Hunknown, tools_by_name_known. eauto.
Qed.

(** The loop over the sub-agents: it fills the dictionary, or stops at the
    first sub-agent that names an unknown tool. *)
Lemma create_agents_outcome subagents :
  ∀ agents,
    (Forall (fun a => ¬ names_unknown_tool tool_name tools a) subagents ∧
     create_agents tool_name create_react_agent tools subagents agents
     = Return (dict_fill sa_name (built_agent tool_name create_react_agent tools)
                         agents subagents)) ∨
    (Exists (names_unknown_tool tool_name tools) subagents ∧
     create_agents tool_name create_react_agent tools subagents agents
     = Raise KeyError).
Proof.
  induction subagents as [|a rest IH]; intros agents; [left; by split |].
  simpl create_agents.
  change (match sa_tools a with
          | Some names => lookup_tools (tools_by_name tool_name tools) names
          | None => Return tools
          end) with (agent_tools tool_name tools a).
  destruct (agent_tools_outcome a) as [(found & Hfound & _)|[Hraise Hbad]].
  - rewrite Hfound. simpl.
    assert (Hbuilt : create_react_agent (sa_prompt a) found
                     = built_agent tool_name create_react_agent tools a)
      by (unfold built_agent; by rewrite Hfound).
    rewrite Hbuilt.
    destruct (IH (dict_set agents (sa_name a)
                    (built_agent tool_name create_react_agent tools a)))
      as [[Hok Hret]|[Hbad Hret]].
    + left. split; [| exact Hret]. constructor; [| done].
      intros Hbad. by rewrite (names_unknown_tool_Raise _ Hbad) in Hfound.
    + right. split; [by right | exact Hret].
  - right. rewrite Hraise. split; [by left | done].
Qed.

(** X13. [_create_task_tool] builds its registry exactly when no
    sub-agent names a tool that is not in the tool list, and raises
    [KeyError] otherwise; the registry built has the names of the
    sub-agents for keys, each once. *)
Theorem create_agents_succeeds_iff subagents :
  (Forall (fun a => ¬ names_unknown_tool tool_name tools a) subagents →
     ∃ agents,
       create_agents tool_name create_react_agent tools subagents [] = Return agents ∧
       NoDup (dict_keys agents) ∧
       ∀ name, name ∈ dict_keys agents ↔ name ∈ sa_name <$> subagents) ∧
  (Exists (names_unknown_tool tool_name tools) subagents →
     create_agents tool_name create_react_agent tools subagents [] = Raise KeyError).
Proof.
  destruct (create_agents_outcome subagents []) as [[Hok Hret]|[Hbad Hret]]; split.
  - intros _. eexists. split; [exact Hret |]. split.
    + apply dict_fill_NoDup. constructor.
    + intros name. rewrite dict_fill_keys. unfold dict_keys at 1. simpl.
      rewrite elem_of_nil. tauto.
  - intros Hbad. exfalso. apply Exists_exists in Hbad as (a & Hin & Ha).
    rewrite Forall_forall in Hok. by apply (Hok a).
  - intros Hok. exfalso. apply Exists_exists in Hbad as (a & Hin & Ha).
    rewrite Forall_forall in Hok. by apply (Hok a).
  - done.
Qed.

(** X14. In the registry built, a name stands for the agent made from the
    last sub-agent of the list that bears it, with that sub-agent's prompt;
    the agent has all the tools when the sub-agent has no [tools] key, and
    otherwise, for each name listed and in that order, the last tool of the
    tool list that bears the name. *)
Theorem create_agents_registry subagents agents :
  create_agents tool_name create_react_agent tools subagents [] = Return agents →
  (∀ name,
     dict_get agents name
     = built_agent tool_name create_react_agent tools
         <$> last (filter (fun a => sa_name a = name) subagents)) ∧
  (∀ a, a ∈ subagents →
     ∃ found,
       built_agent tool_name create_react_agent tools a
         = create_react_agent (sa_prompt a) found ∧
       match sa_tools a with
       | None => found = tools
       | Some names =>
           Forall2 (fun n tool_ =>
                      last (filter (fun t => tool_name t = n) tools) = Some tool_)
                   names found
       end).
Proof.
  intros Hret.
  destruct (create_agents_outcome subagents []) as [[Hok Hfill]|[_ Hraise]];
    [| by rewrite Hraise in Hret].
  rewrite Hfill in Hret. injection Hret as <-. split.
  - intros name. rewrite dict_fill_get.
    by destruct (last (filter (fun a => sa_name a = name) subagents)).
  - intros a Hin. rewrite Forall_forall in Hok. specialize (Hok a Hin).
    destruct (agent_tools_outcome a) as [(found & Hfound & Hshape)|[_ Hbad]]; [| done].
    exists found. split; [| done]. unfold built_agent. by rewrite Hfound.
Qed.

End AgentRegistry.

(** ** More on delegation *)

Section DelegationMore.

Implicit Types agents : pydict Agent.
Implicit Types description subagent_type tool_call_id : str.
Implicit Types state : DeepAgentState.

Lemma last_filter_is_Some (subagents : list SubAgent) (name : str) :
  name ∈ sa_name <$> subagents →
  is_Some (last (filter (fun a => sa_name a = name) subagents)).
Proof.
  intros (a & -> & Hin)%list_elem_of_fmap. apply last_is_Some.
  intros Hnil.
  assert (Ha : a ∈ filter (fun a' => sa_name a' = sa_name a) subagents)
    by (by apply list_elem_of_filter).
  rewrite Hnil in Ha. by apply elem_of_nil in Ha.
Qed.

(** X15. The tool [_create_task_tool] returns delegates to every name of
    the configuration: on such a name it runs the agent built from the last
    sub-agent bearing the name, on the one user turn with the description
    and the todos and files of the state, and what it returns is what
    that run gives: the fault the run raises, [IndexError] for a run
    without messages, and otherwise the command with the files of the run
    and one tool message with the content of its last message. Any other
    name is answered with the error text, the state left as it was; the
    text lists the [repr] of every name of the configuration between
    backquotes. *)
Theorem create_task_tool_then_task {Tool} (repr_str : str -> str)
    (tool_name : Tool -> str) (create_react_agent : str -> list Tool -> Agent)
    (tools : list Tool) (subagents : list SubAgent) task_tool
    description subagent_type state tool_call_id :
  let invoked :=
    {| messages := [ {| msg_role := lit "user"; msg_content := description;
                        msg_tool_call_id := None |} ];
       todos := todos state;
       files := files state |} in
  _create_task_tool repr_str tool_name create_react_agent tools subagents
    = Return task_tool →
  (subagent_type ∈ sa_name <$> subagents →
     ∃ a,
       last (filter (fun a => sa_name a = subagent_type) subagents) = Some a ∧
       task_tool description subagent_type state tool_call_id
       = (invoked,
          match built_agent tool_name create_react_agent tools a invoked with
          | Raise e => Raise e
          | Return result =>
              match last (messages result) with
              | None => Raise IndexError
              | Some final =>
                  Return (Cmd {| u_files := Some (default ∅ (files result));
                                 u_todos := None;
                                 u_messages :=
                                   Some [ {| msg_role := lit "tool";
                                             msg_content := msg_content final;
                                             msg_tool_call_id := Some tool_call_id |} ] |})
              end
          end)) ∧
  (subagent_type ∉ sa_name <$> subagents →
     ∃ text,
       task_tool description subagent_type state tool_call_id
         = (state, Return (Text text)) ∧
       ∀ a, a ∈ subagents →
            occurs_in (repr_str (lit "`" ++ sa_name a ++ lit "`")) text).
Proof.
  intros invoked. unfold _create_task_tool. intros Hcreate.
  destruct (create_agents tool_name create_react_agent tools subagents [])
    as [agents|e] eqn:Hagents; simpl in Hcreate; [| done].
  injection Hcreate as <-.
  destruct (create_agents_outcome tool_name create_react_agent tools subagents [])
    as [[_ Hfill]|[_ Hraise]]; [| by rewrite Hraise in Hagents].
  rewrite Hagents in Hfill. injection Hfill as Hfill.
  assert (Hkeys : ∀ name, name ∈ dict_keys agents ↔ name ∈ sa_name <$> subagents).
  { intros name. rewrite Hfill, dict_fill_keys. unfold dict_keys at 1. simpl.
    rewrite elem_of_nil. tauto. }
  assert (Hget : dict_get agents subagent_type
                 = built_agent tool_name create_react_agent tools
                     <$> last (filter (fun a => sa_name a = subagent_type) subagents)).
  { rewrite Hfill, dict_fill_get.
    by destruct (last (filter (fun a => sa_name a = subagent_type) subagents)). }
  clear Hfill. split.
  - intros Hin. destruct (last_filter_is_Some _ _ Hin) as [a Ha].
    exists a. split; [exact Ha |].
    rewrite Ha in Hget. simpl in Hget. unfold task. rewrite Hget.
    change (isolated state description) with invoked. f_equal.
    destruct (built_agent tool_name create_react_agent tools a invoked)
      as [result|e]; simpl; [| done].
    rewrite getitem_last. by destruct (last (messages result)).
  - intros Hnot. eexists. split.
    + unfold task. destruct (dict_get agents subagent_type) eqn:Hsome; [| done].
      exfalso. apply Hnot, Hkeys, dict_get_is_Some. eauto.
    + intros a Ha. unfold unknown_agent_error, str_of_list.
      rewrite !(app_assoc _ _ (join _ _ ++ _)).
      apply occurs_in_app, occurs_in_join.
      apply (list_elem_of_fmap_2 repr_str), (list_elem_of_fmap_2 (backquoted)).
      apply Hkeys. by apply list_elem_of_fmap_2.
Qed.

(** X16. A fault of the sub-agent is not caught: [task] raises it, after
    the messages of the injected state have been replaced; and a sub-agent
    that returns without any message makes [task] raise [IndexError]. *)
Theorem task_propagates_faults (repr_str : str -> str) agents description
    subagent_type state tool_call_id (sub_agent : Agent) :
  dict_get agents subagent_type = Some sub_agent →
  (∀ e, sub_agent (isolated state description) = Raise e →
        task repr_str agents description subagent_type state tool_call_id
        = (isolated state description, Raise e)) ∧
  (∀ result, sub_agent (isolated state description) = Return result →
             messages result = [] →
             task repr_str agents description subagent_type state tool_call_id
             = (isolated state description, Raise IndexError)).
Proof.
  intros Hget. unfold task. rewrite Hget. split.
  - by intros e ->.
  - intros result -> Hnone. simpl. by rewrite Hnone.
Qed.

(** X17. Context isolation: on a registered name, two parent states with
    the same todos and files give the same run, whatever their messages;
    and [task] never changes the todos and the files of the injected
    state. *)
Theorem task_ignores_parent_messages (repr_str : str -> str) agents description
    subagent_type state1 state2 tool_call_id :
  (is_Some (dict_get agents subagent_type) →
   todos state1 = todos state2 →
   files state1 = files state2 →
   task repr_str agents description subagent_type state1 tool_call_id
   = task repr_str agents description subagent_type state2 tool_call_id) ∧
  todos (task repr_str agents description subagent_type state1 tool_call_id).1
    = todos state1 ∧
  files (task repr_str agents description subagent_type state1 tool_call_id).1
    = files state1.
Proof.
  unfold task. split.
  - intros [sub_agent ->] Htodos Hfiles.
    assert (Hiso : isolated state1 description = isolated state2 description)
      by (unfold isolated; by rewrite Htodos, Hfiles).
    by rewrite Hiso.
  - by destruct (dict_get agents subagent_type).
Qed.

End DelegationMore.

(** ** The research tools *)

Section PathNames.

Implicit Types p name ext : str.

Lemma rfind_from_spec (c : char) p :
  ∀ i found,
    rfind_from c p i found = found ∨
    (i ≤ rfind_from c p i found
     ∧ p !! Z.to_nat (rfind_from c p i found - i) = Some c).
Proof.
  induction p as [|x rest IH]; intros i found; simpl; [by left |].
  destruct (IH (i + 1) (if decide (x = c) then i else found)) as [->|[Hle Hget]].
  - destruct (decide (x = c)) as [->|_]; [| by left].
    right. split; [lia |]. by rewrite Z.sub_diag.
  - right. split; [lia |].
    replace (Z.to_nat (rfind_from c rest (i + 1) (if decide (x = c) then i else found) - i))
      with (S (Z.to_nat (rfind_from c rest (i + 1)
                           (if decide (x = c) then i else found) - (i + 1))))
      by lia.
    done.
Qed.

Lemma rfind_spec p (c : char) :
  rfind p c = -1 ∨ (0 ≤ rfind p c ∧ p !! Z.to_nat (rfind p c) = Some c).
Proof.
  unfold rfind. destruct (rfind_from_spec c p 0 (-1)) as [?|[? Hget]]; [by left |].
  right. split; [done |]. by rewrite Z.sub_0_r in Hget.
Qed.

Lemma rfind_from_last (c : char) p :
  ∀ i found (k : nat),
    found < i →
    rfind_from c p i found - i < Z.of_nat k →
    p !! k ≠ Some c.
Proof.
  induction p as [|x rest IH]; intros i found k Hfound Hk; simpl; [done |].
  simpl in Hk.
  set (found' := if decide (x = c) then i else found) in *.
  assert (Hfound' : found' < i + 1) by (subst found'; destruct (decide (x = c)); lia).
  destruct k as [|k]; simpl.
  - intros [= ->]. subst found'. rewrite decide_True in Hk by done.
    destruct (rfind_from_spec c rest (i + 1) i) as [Heq|[? _]]; lia.
  - apply (IH (i + 1) found'); [done | lia].
Qed.

Lemma rfind_last p (c : char) (k : nat) :
  rfind p c < Z.of_nat k → p !! k ≠ Some c.
Proof. unfold rfind. intros Hk. apply (rfind_from_last c p 0 (-1)); lia. Qed.

Lemma splitext_scan_spec p (extsep : char) (dotIndex : Z) idxs :
  splitext_scan p extsep dotIndex idxs = (p, []) ∨
  splitext_scan p extsep dotIndex idxs
  = (take (Z.to_nat dotIndex) p, drop (Z.to_nat dotIndex) p).
Proof.
  induction idxs as [|i idxs IH]; simpl; [by left |].
  destruct (decide (p !! Z.to_nat i = Some extsep)); [done | by right].
Qed.

(** [splitext] cuts the path in two; the second part is empty, or it
    begins with the last dot of the path and holds no separator. *)
Lemma _splitext_spec p (sep : char) (altsep : option char) (extsep : char) :
  ∃ name ext, _splitext p sep altsep extsep = (name, ext) ∧
              name ++ ext = p ∧
              (ext = [] ∨ ∃ t, ext = extsep :: t ∧ (extsep ∉ t) ∧ sep ∉ t).
Proof.
  unfold _splitext. cbv zeta.
  set (sepIndex := match altsep with
                   | Some alt => Z.max (rfind p sep) (rfind p alt)
                   | None => rfind p sep
                   end).
  assert (Hsep : rfind p sep ≤ sepIndex ∧ -1 ≤ sepIndex).
  { subst sepIndex. destruct (rfind_spec p sep) as [->|[? _]];
      destruct altsep; lia. }
  destruct (Z.gtb_spec (rfind p extsep) sepIndex) as [Hdot|_].
  - destruct (splitext_scan_spec p extsep (rfind p extsep)
                (range (sepIndex + 1) (rfind p extsep))) as [->| ->].
    + exists p, []. rewrite app_nil_r. eauto.
    + eexists _, _. split; [done |]. split; [apply take_drop |].
      right. destruct (rfind_spec p extsep) as [?|[Hpos Hget]]; [lia |].
      rewrite (drop_S _ _ _ Hget). eexists. split; [done |].
      split; intros (j & Hj)%list_elem_of_lookup_1; rewrite lookup_drop in Hj;
        eapply rfind_last; try exact Hj; lia.
  - exists p, []. rewrite app_nil_r. eauto.
Qed.

Lemma with_uid_URL_error (os_sep : char) (os_altsep : option char) (uid : str) :
  path_flavour os_sep os_altsep →
  with_uid os_sep os_altsep (lit "URL_error.md") uid
  = lit "URL_error_" ++ uid ++ lit ".md".
Proof. by intros [[-> ->]|[-> ->]]. Qed.

Lemma with_uid_search_result (os_sep : char) (os_altsep : option char) (uid : str) :
  path_flavour os_sep os_altsep →
  with_uid os_sep os_altsep (lit "search_result.md") uid
  = lit "search_result_" ++ uid ++ lit ".md".
Proof. by intros [[-> ->]|[-> ->]]. Qed.

End PathNames.

Section SearchResults.

Variable os_sep : char.
Variable os_altsep : option char.
Variable httpx_get : nat -> str -> outcome Response.
Variable markdownify : str -> str.
Variable invoke_summarizer : nat -> str -> outcome Summary.
Variable uuid4_uid : nat -> str.

Local Abbreviation run_loop :=
  (process_loop os_sep os_altsep httpx_get markdownify invoke_summarizer uuid4_uid).
Local Abbreviation process :=
  (process_search_results os_sep os_altsep httpx_get markdownify invoke_summarizer
                          uuid4_uid).
Local Abbreviation entry_of :=
  (processed_of os_sep os_altsep httpx_get markdownify invoke_summarizer uuid4_uid).
Local Abbreviation fetch :=
  (fetch_and_summarize httpx_get markdownify invoke_summarizer).

Implicit Types results : list TavilyResult.

Lemma process_loop_complete results :
  Forall has_url_and_title results →
  ∀ i processed,
    run_loop i results processed
    = Return (processed ++ imap (fun k result => entry_of (i + k) result) results).
Proof.
  induction 1 as [|result rest [[url Hurl] [title Htitle]] _ IH]; intros i processed.
  - simpl. by rewrite app_nil_r.
  - simpl. rewrite Nat.add_0_r. unfold processed_of at 1.
    rewrite Hurl, Htitle. simpl.
    destruct (fetch i result url) as [raw_content summary_obj].
    simpl. rewrite IH, <- app_assoc. simpl. do 3 f_equal.
    apply imap_ext. intros k r _. simpl. f_equal. lia.
Qed.

Lemma process_loop_missing_key results :
  Exists (fun result => ¬ has_url_and_title result) results →
  ∀ i processed, run_loop i results processed = Raise KeyError.
Proof.
  induction results as [|result rest IH]; intros Hbad i processed;
    [by apply Exists_nil in Hbad |].
  simpl. destruct (r_url result) as [url|] eqn:Hurl; simpl; [| done].
  destruct (fetch i result url) as [raw_content summary_obj].
  destruct (r_title result) as [title|] eqn:Htitle; simpl; [| done].
  apply IH. apply Exists_cons in Hbad as [Hhead|Htail]; [| done].
  exfalso. apply Hhead. unfold has_url_and_title. rewrite Hurl, Htitle. eauto.
Qed.

(** X19. [process_search_results] gives one entry per search result, in
    order, each with the url and the title of its result, when every
    result has both keys; it raises [KeyError], giving nothing back, as
    soon as one result lacks one of them; and it gives the empty list for
    a response without results. *)
Theorem process_search_results_outcome results :
  (Forall has_url_and_title results →
     ∃ processed,
       process (Some results) = Return processed ∧
       length processed = length results ∧
       ∀ i result, results !! i = Some result →
         ∃ entry, processed !! i = Some entry ∧
                  r_url result = Some (p_url entry) ∧
                  r_title result = Some (p_title entry)) ∧
  (Exists (fun result => ¬ has_url_and_title result) results →
     process (Some results) = Raise KeyError) ∧
  process None = Return [] ∧
  process (Some []) = Return [].
Proof.
  split; [| split; [| done]].
  - intros Hall. eexists. split; [by apply process_loop_complete |].
    simpl. split; [by rewrite length_imap |].
    intros i result Hi. eexists. split; [by rewrite list_lookup_imap, Hi |].
    rewrite Forall_forall in Hall.
    destruct (Hall result) as [[url Hurl] [title Htitle]];
      [by eapply list_elem_of_lookup_2 |].
    unfold processed_of. rewrite Hurl, Htitle. simpl.
    by destruct (fetch i result url).
  - intros Hbad. by apply process_loop_missing_key.
Qed.

(** X20. A page that cannot be fetched, or that answers with another
    status than 200, is not summarized: its entry carries the content the
    search gave, or the fixed error text without it, the raw content the
    search gave, or the empty string without it, and a name made of
    [URL_error], the identifier and [.md]. *)
Theorem process_search_results_fetch_failed results i result url :
  path_flavour os_sep os_altsep →
  Forall has_url_and_title results →
  results !! i = Some result →
  r_url result = Some url →
  (∀ response, httpx_get i url = Return response → status_code response ≠ 200) →
  ∃ processed entry,
    process (Some results) = Return processed ∧
    processed !! i = Some entry ∧
    p_summary entry = default url_error_text (r_content result) ∧
    p_raw_content entry = default (Some []) (r_raw_content result) ∧
    p_filename entry = lit "URL_error_" ++ uuid4_uid i ++ lit ".md".
Proof.
  intros Hflavour Hall Hi Hurl Hfail.
  eexists _, _. split; [by apply process_loop_complete |].
  simpl. split; [by rewrite list_lookup_imap, Hi |].
  unfold processed_of. rewrite Hurl. simpl.
  unfold fetch_and_summarize.
  destruct (httpx_get i url) as [response|e] eqn:Hget.
  - destruct (Z.eqb_spec (status_code response) 200) as [H200|_];
      [by destruct (Hfail response) |].
    simpl. by rewrite with_uid_URL_error.
  - simpl. by rewrite with_uid_URL_error.
Qed.

(** X21. When the page is fetched and the summarization fails, the entry
    carries the markdown of the page as raw content and, as summary, the
    markdown itself when it has at most 1000 characters and its first 1000
    characters followed by three dots otherwise, so at most 1003
    characters; its name is made of [search_result], the identifier and
    [.md]. *)
Theorem process_search_results_summary_failed results i result url response e :
  path_flavour os_sep os_altsep →
  Forall has_url_and_title results →
  results !! i = Some result →
  r_url result = Some url →
  httpx_get i url = Return response →
  status_code response = 200 →
  invoke_summarizer i (markdownify (text response)) = Raise e →
  ∃ processed entry,
    process (Some results) = Return processed ∧
    processed !! i = Some entry ∧
    p_raw_content entry = Some (markdownify (text response)) ∧
    ((length (markdownify (text response)) ≤ 1000)%nat →
       p_summary entry = markdownify (text response)) ∧
    ((1000 < length (markdownify (text response)))%nat →
       p_summary entry = take 1000 (markdownify (text response)) ++ lit "...") ∧
    (length (p_summary entry) ≤ 1003)%nat ∧
    p_filename entry = lit "search_result_" ++ uuid4_uid i ++ lit ".md".
Proof.
  intros Hflavour Hall Hi Hurl Hget H200 Hsum.
  eexists _, _. split; [by apply process_loop_complete |].
  simpl. split; [by rewrite list_lookup_imap, Hi |].
  unfold processed_of. rewrite Hurl. simpl.
  unfold fetch_and_summarize. rewrite Hget, H200. simpl.
  unfold summarize_webpage_content. rewrite Hsum. simpl.
  split; [done |].
  destruct (Z.gtb_spec (Z.of_nat (length (markdownify (text response)))) 1000).
  - split; [lia |]. split; [done |]. split; [| by rewrite with_uid_search_result].
    rewrite length_app, length_take. change (length (lit "...")) with 3%nat. lia.
  - split; [done |]. split; [lia |]. split; [lia | by rewrite with_uid_search_result].
Qed.

End SearchResults.

Section InsertAll.

Implicit Types m : gmap str str.
Implicit Types entries : list (str * str).

Lemma insert_all_snoc m entries k v :
  insert_all m (entries ++ [(k, v)]) = <[k := v]> (insert_all m entries).
Proof. unfold insert_all. by rewrite foldl_snoc. Qed.

(** The last assignment to a key is the one that stays. *)
Lemma insert_all_lookup entries : ∀ m k,
  insert_all m entries !! k
  = match last (filter (fun e => e.1 = k) entries) with
    | Some e => Some e.2
    | None => m !! k
    end.
Proof.
  induction entries as [|[k0 v0] entries IH] using rev_ind; intros m k; [done |].
  rewrite insert_all_snoc, filter_app, last_app, filter_cons, filter_nil. simpl.
  destruct (decide (k0 = k)) as [->|Hne]; simpl.
  - by rewrite lookup_insert_eq.
  - by rewrite lookup_insert_ne, IH.
Qed.

Lemma insert_all_lookup_other entries m k :
  k ∉ entries.*1 → insert_all m entries !! k = m !! k.
Proof.
  intros Hk. rewrite insert_all_lookup.
  destruct (last (filter (fun e => e.1 = k) entries)) as [e|] eqn:Hlast; [| done].
  exfalso. apply Hk. apply last_Some_elem_of, list_elem_of_filter in Hlast as [<- Hin].
  by apply list_elem_of_fmap_2.
Qed.


End InsertAll.

Section Occurrences.

Implicit Types x s a b : str.

Lemma occurs_in_refl x : occurs_in x x.
Proof. exists [], []. by rewrite app_nil_r. Qed.

Lemma occurs_in_app_r x a s : occurs_in x s → occurs_in x (a ++ s).
Proof. intros (before & after & ->). exists (a ++ before), after. by rewrite app_assoc. Qed.

Lemma occurs_in_app_l x s b : occurs_in x s → occurs_in x (s ++ b).
Proof.
  intros (before & after & ->). exists before, (after ++ b).
  by rewrite <- !app_assoc.
Qed.

End Occurrences.

Section TavilySearch.

Variable os_sep : char.
Variable os_altsep : option char.
Variable tavily_client_search : str -> Z -> bool -> str -> outcome (option (list TavilyResult)).
Variable httpx_get : nat -> str -> outcome Response.
Variable markdownify : str -> str.
Variable invoke_summarizer : nat -> str -> outcome Summary.
Variable uuid4_uid : nat -> str.
Variable get_today_str : nat -> str.

Local Abbreviation search :=
  (tavily_search os_sep os_altsep tavily_client_search httpx_get markdownify
                 invoke_summarizer uuid4_uid get_today_str).
Local Abbreviation run := (run_tavily_search tavily_client_search).
Local Abbreviation process :=
  (process_search_results os_sep os_altsep httpx_get markdownify invoke_summarizer
                          uuid4_uid).
Local Abbreviation entries_of := (saved_entries get_today_str).

Implicit Types query tool_call_id topic : str.
Implicit Types state : DeepAgentState.
Implicit Types max_results : Z.
Implicit Types processed : list ProcessedResult.

Lemma save_loop_spec query processed :
  ∀ i files saved_files summaries,
    save_loop get_today_str query i processed files saved_files summaries
    = (insert_all files (entries_of query i processed),
       saved_files ++ (p_filename <$> processed),
       summaries ++ (summary_line <$> processed)).
Proof.
  induction processed as [|result rest IH]; intros i files saved_files summaries.
  - simpl. by rewrite !app_nil_r.
  - simpl. rewrite IH, <- !app_assoc, Nat.add_0_r. simpl. do 2 f_equal.
    unfold saved_entries. f_equal. apply imap_ext. intros k r _. simpl.
    do 2 f_equal. lia.
Qed.

Lemma saved_entries_names query i processed :
  (entries_of query i processed).*1 = p_filename <$> processed.
Proof.
  unfold saved_entries. apply list_eq. intros k.
  rewrite !list_lookup_fmap, list_lookup_imap. by destruct (processed !! k).
Qed.

Lemma tavily_search_success query state tool_call_id max_results topic
    search_results processed :
  run query max_results topic true = Return search_results →
  process search_results = Return processed →
  search query state tool_call_id max_results topic
  = (match files state with
     | Some _ =>
         mkState (messages state) (todos state)
           (Some (insert_all (default ∅ (files state)) (entries_of query 0 processed)))
     | None => state
     end,
     Return {| u_files := Some (insert_all (default ∅ (files state))
                                           (entries_of query 0 processed));
               u_todos := None;
               u_messages :=
                 Some [ToolMessage
                         (summary_text query (length processed)
                            (p_filename <$> processed) (summary_line <$> processed))
                         tool_call_id] |}).
Proof.
  intros Hrun Hprocess. unfold tavily_search. rewrite Hrun, Hprocess.
  by rewrite save_loop_spec.
Qed.

(** X22. A fault of the search, or a search result without url or title,
    makes [tavily_search] raise before anything is written: whenever it
    raises, the injected state is as it was. *)
Theorem tavily_search_raises_untouched query state tool_call_id max_results topic :
  (∀ e, run query max_results topic true = Raise e →
        search query state tool_call_id max_results topic = (state, Raise e)) ∧
  (∀ results,
     run query max_results topic true = Return (Some results) →
     Exists (fun result => ¬ has_url_and_title result) results →
     search query state tool_call_id max_results topic = (state, Raise KeyError)) ∧
  (∀ e, (search query state tool_call_id max_results topic).2 = Raise e →
        (search query state tool_call_id max_results topic).1 = state).
Proof.
  unfold tavily_search. split; [| split].
  - by intros e ->.
  - intros results -> Hbad. unfold process_search_results. simpl.
    by rewrite process_loop_missing_key.
  - intros e. destruct (run query max_results topic true); [| done].
    destruct (process _); [| done].
    by destruct (save_loop _ _ _ _ _ _ _) as [[? ?] ?].
Qed.

(** X23. When the search and the processing succeed, the command of
    [tavily_search] carries the files of the state with one file written
    per entry: every name saved is a key, a key that is no name saved has
    the content it had, a name saved twice has the content written last;
    the command carries no todos; and a state that had a [files]
    dictionary holds these files after the call. *)
Theorem tavily_search_saves_files query state tool_call_id max_results topic
    search_results processed :
  run query max_results topic true = Return search_results →
  process search_results = Return processed →
  ∃ files' text,
    (search query state tool_call_id max_results topic).2
    = Return {| u_files := Some files'; u_todos := None;
                u_messages := Some [ToolMessage text tool_call_id] |} ∧
    (∀ entry, entry ∈ processed → is_Some (files' !! p_filename entry)) ∧
    (∀ k, k ∉ p_filename <$> processed →
          files' !! k = default ∅ (files state) !! k) ∧
    (∀ k, files' !! k
          = match last (filter (fun e => e.1 = k) (entries_of query 0 processed)) with
            | Some e => Some e.2
            | None => default ∅ (files state) !! k
            end) ∧
    (is_Some (files state) →
       files (search query state tool_call_id max_results topic).1 = Some files') ∧
    (files state = None →
       (search query state tool_call_id max_results topic).1 = state).
Proof.
  intros Hrun Hprocess.
  rewrite (tavily_search_success _ _ _ _ _ _ _ Hrun Hprocess).
  eexists _, _. split; [reflexivity |]. split; [| split; [| split; [| split]]].
  - intros entry Hin. rewrite insert_all_lookup.
    destruct (last (filter (fun e => e.1 = p_filename entry)
                           (entries_of query 0 processed))) as [e|] eqn:Hlast;
      [eauto |].
    exfalso. apply last_None in Hlast.
    apply list_elem_of_lookup_1 in Hin as [i Hi].
    assert (Hmem : (p_filename entry, file_content get_today_str query (0 + i) entry)
                   ∈ filter (fun e => e.1 = p_filename entry)
                            (entries_of query 0 processed)).
    { apply list_elem_of_filter. split; [done |].
      unfold saved_entries. apply elem_of_lookup_imap. by exists i, entry. }
    rewrite Hlast in Hmem. by apply elem_of_nil in Hmem.
  - intros k Hk. apply insert_all_lookup_other. by rewrite saved_entries_names.
  - intros k. apply insert_all_lookup.
  - intros [f Hf]. simpl. by rewrite Hf.
  - intros Hf. simpl. by rewrite Hf.
Qed.

(** X24. The answer of [tavily_search] is one tool message; its text
    gives the number of entries, one line for each entry with its file
    name and its summary, and the list of the file names saved, in the
    order of the entries. *)
Theorem tavily_search_answer query state tool_call_id max_results topic
    search_results processed :
  run query max_results topic true = Return search_results →
  process search_results = Return processed →
  ∃ files' text,
    (search query state tool_call_id max_results topic).2
    = Return {| u_files := Some files'; u_todos := None;
                u_messages := Some [ToolMessage text tool_call_id] |} ∧
    occurs_in (lit " Found " ++ str_of_int (Z.of_nat (length processed))
                 ++ lit " result(s) for '" ++ query ++ lit "':") text ∧
    occurs_in (lit "Files: " ++ join (lit ", ") (p_filename <$> processed)) text ∧
    ∀ entry, entry ∈ processed →
      occurs_in (lit "- " ++ p_filename entry ++ lit ": " ++ p_summary entry
                   ++ lit "...") text ∧
      occurs_in (p_filename entry) (join (lit ", ") (p_filename <$> processed)).
Proof.
  intros Hrun Hprocess.
  rewrite (tavily_search_success _ _ _ _ _ _ _ Hrun Hprocess).
  eexists _, _. split; [reflexivity |]. unfold summary_text.
  split; [| split].
  - eexists [128269%N], _. rewrite <- !app_assoc. reflexivity.
  - do 11 apply occurs_in_app_r. rewrite app_assoc.
    apply occurs_in_app_l, occurs_in_refl.
  - intros entry Hin. split.
    + do 8 apply occurs_in_app_r. apply occurs_in_app_l, occurs_in_join.
      by apply (list_elem_of_fmap_2 summary_line).
    + apply occurs_in_join. by apply list_elem_of_fmap_2.
Qed.


End TavilySearch.

(** ** Concrete runs of the further properties *)

Lemma read_file_row_count_witness :
  ∃ rows, read_file (lit "notes.md") notes_state 1 1 = Return (join [LF] rows) ∧
          length rows = 1%nat.
Proof.
  destruct (read_file_row_count (lit "notes.md") notes_state three_lines 1 1)
    as (rows & Hread & Hcount & _);
    [vm_compute; reflexivity | discriminate
    | vm_compute; split; [discriminate | reflexivity] |].
  exists rows. split; [exact Hread |].
  assert (Hone : Z.of_nat (length rows) = 1) by (rewrite Hcount; reflexivity).
  lia.
Defined.

Lemma read_file_nonpositive_limit_witness :
  read_file (lit "notes.md") notes_state (-10) 0 = Return [].
Proof.
  apply (read_file_nonpositive_limit (lit "notes.md") notes_state three_lines (-10) 0);
    [vm_compute; reflexivity | discriminate | vm_compute; reflexivity
    | vm_compute; discriminate].
Defined.

Lemma write_file_then_read_file_witness :
  read_file (lit "x.md")
    (after_write_file (lit "x.md") (join [LF] [lit "hello"; lit "world"])
                      empty_state (lit "call_1")) 0 2000
  = Return (lit "     1" ++ [TAB] ++ lit "hello" ++ [LF]
              ++ lit "     2" ++ [TAB] ++ lit "world").
Proof.
  rewrite (write_file_then_read_file (lit "x.md") [lit "hello"; lit "world"]
             empty_state (lit "call_1") 2000);
    [reflexivity
    | by apply (bool_decide_unpack _); vm_compute
    | discriminate | discriminate | vm_compute; discriminate].
Defined.

Lemma read_todos_lines_witness :
  length (splitlines (read_todos parent_state (lit "call_1"))) = 2%nat.
Proof.
  destruct (read_todos_lines parent_state (lit "call_1")) as [_ Hlen];
    [discriminate | by apply (bool_decide_unpack _); vm_compute | exact Hlen].
Defined.

Lemma create_agents_registry_witness :
  ∃ agents,
    create_agents (fun t : str => t) (fun _ _ => research_agent) sub_agent_tools
                  [research_sub_agent] [] = Return agents ∧
    is_Some (dict_get agents (lit "research-agent")) ∧
    dict_get agents (lit "general-purpose") = None.
Proof.
  eexists. split; [reflexivity |].
  destruct (create_agents_registry (fun t : str => t) (fun _ _ => research_agent)
              sub_agent_tools [research_sub_agent]
              [(lit "research-agent", research_agent)] eq_refl) as [Hget _].
  split; rewrite Hget; [by eexists | reflexivity].
Defined.

Lemma create_task_tool_then_task_witness :
  ∃ task_tool text,
    _create_task_tool repr_plain (fun t : str => t) (fun _ _ => research_agent)
                      sub_agent_tools [research_sub_agent] = Return task_tool ∧
    task_tool (lit "find Y") (lit "research-agent") parent_state (lit "call_7")
    = ({| messages := [ mkMessage (lit "user") (lit "find Y") None ];
          todos := todos parent_state;
          files := files parent_state |},
       Return (Cmd {| u_files :=
                        Some {[ lit "plan.md" := lit "step 1";
                                lit "result_ab12cd34.md" := lit "Y" ]};
                      u_todos := None;
                      u_messages :=
                        Some [ mkMessage (lit "tool") (lit "found Y")
                                         (Some (lit "call_7")) ] |})) ∧
    task_tool (lit "do X") (lit "general-purpose") parent_state (lit "call_7")
    = (parent_state, Return (Text text)).
Proof.
  eexists.
  destruct (create_task_tool_then_task repr_plain (fun t : str => t)
              (fun _ _ => research_agent) sub_agent_tools [research_sub_agent]
              (task repr_plain [(lit "research-agent", research_agent)])
              (lit "find Y") (lit "research-agent") parent_state (lit "call_7")
              eq_refl) as [Hknown _].
  destruct (create_task_tool_then_task repr_plain (fun t : str => t)
              (fun _ _ => research_agent) sub_agent_tools [research_sub_agent]
              (task repr_plain [(lit "research-agent", research_agent)])
              (lit "do X") (lit "general-purpose") parent_state (lit "call_7")
              eq_refl) as [_ Hunknown].
  destruct Hknown as (a & Ha & Hrun); [by apply list_elem_of_singleton |].
  destruct Hunknown as (text & Htext & _).
  { intros Hin. apply list_elem_of_singleton in Hin. discriminate. }
  exists text. split; [reflexivity |]. split; [| exact Htext].
  refine (eq_trans Hrun _).
  change (Some research_sub_agent = Some a) in Ha. injection Ha as <-.
  vm_compute. reflexivity.
Defined.

Lemma task_propagates_faults_witness :
  task repr_plain [(lit "research-agent", failing_agent)] (lit "find Y")
       (lit "research-agent") parent_state (lit "call_7")
  = (isolated parent_state (lit "find Y"),
     Raise (AgentFault (lit "model unreachable"))) ∧
  task repr_plain [(lit "research-agent", silent_agent)] (lit "find Y")
       (lit "research-agent") parent_state (lit "call_7")
  = (isolated parent_state (lit "find Y"), Raise IndexError).
Proof.
  split.
  - apply (task_propagates_faults repr_plain [(lit "research-agent", failing_agent)]
             (lit "find Y") (lit "research-agent") parent_state (lit "call_7")
             failing_agent eq_refl); reflexivity.
  - eapply (task_propagates_faults repr_plain [(lit "research-agent", silent_agent)]
              (lit "find Y") (lit "research-agent") parent_state (lit "call_7")
              silent_agent eq_refl); reflexivity.
Defined.

Lemma process_search_results_fetch_failed_witness :
  ∃ processed entry,
    process_search_results 47%N None demo_get demo_markdownify demo_summarizer
                           demo_uid (Some [result_a; result_b]) = Return processed ∧
    processed !! 1%nat = Some entry ∧
    p_summary entry = url_error_text ∧
    p_raw_content entry = Some [] ∧
    p_filename entry = lit "URL_error_uid00001.md".
Proof.
  destruct (process_search_results_fetch_failed 47%N None demo_get demo_markdownify
              demo_summarizer demo_uid [result_a; result_b] 1 result_b
              (lit "https://b.example/y"))
    as (processed & entry & H);
    [by left | repeat constructor; by eexists | reflexivity | reflexivity
    | discriminate |].
  exists processed, entry. exact H.
Defined.

Lemma process_search_results_summary_failed_witness :
  ∃ processed entry,
    process_search_results 47%N None demo_get demo_markdownify demo_summarizer
                           demo_uid (Some [result_a; result_b]) = Return processed ∧
    processed !! 0%nat = Some entry ∧
    p_summary entry = lit "Y is a letter." ∧
    p_filename entry = lit "search_result_uid00000.md".
Proof.
  destruct (process_search_results_summary_failed 47%N None demo_get demo_markdownify
              demo_summarizer demo_uid [result_a; result_b] 0 result_a
              (lit "https://a.example/y") (mkResponse 200 (lit "Y is a letter."))
              (AgentFault (lit "no model")))
    as (processed & entry & Hp & Hi & _ & Hshort & _ & _ & Hname);
    [by left | repeat constructor; by eexists | reflexivity | reflexivity
    | reflexivity | reflexivity | reflexivity |].
  exists processed, entry. split; [exact Hp |]. split; [exact Hi |].
  split; [apply Hshort; vm_compute; lia | exact Hname].
Defined.

Lemma tavily_search_saves_files_witness :
  ∃ files' text,
    (demo_tavily_search (lit "Y") parent_state (lit "call_3") 1 (lit "general")).2
    = Return {| u_files := Some files'; u_todos := None;
                u_messages := Some [ToolMessage text (lit "call_3")] |} ∧
    is_Some (files' !! lit "search_result_uid00000.md") ∧
    is_Some (files' !! lit "URL_error_uid00001.md") ∧
    files' !! lit "plan.md" = Some (lit "step 1").
Proof.
  destruct (tavily_search_saves_files 47%N None demo_search demo_get demo_markdownify
              demo_summarizer demo_uid demo_today (lit "Y") parent_state
              (lit "call_3") 1 (lit "general") (Some [result_a; result_b])
              demo_processed eq_refl eq_refl)
    as (files' & text & Hcmd & Hsaved & Hother & _).
  exists files', text. split; [exact Hcmd |].
  split; [apply (Hsaved (mkProcessed (lit "https://a.example/y") (lit "About Y")
                           (lit "Y is a letter.") (lit "search_result_uid00000.md")
                           (Some (lit "Y is a letter.")))); by left |].
  split; [apply (Hsaved (mkProcessed (lit "https://b.example/y") (lit "More on Y")
                           url_error_text (lit "URL_error_uid00001.md") (Some [])));
          right; by left |].
  rewrite Hother; [reflexivity | by apply (bool_decide_unpack _); vm_compute].
Defined.

Lemma tavily_search_answer_witness :
  ∃ files' text,
    (demo_tavily_search (lit "Y") parent_state (lit "call_3") 1 (lit "general")).2
    = Return {| u_files := Some files'; u_todos := None;
                u_messages := Some [ToolMessage text (lit "call_3")] |} ∧
    occurs_in (lit " Found 2 result(s) for 'Y':") text ∧
    occurs_in (lit "Files: search_result_uid00000.md, URL_error_uid00001.md") text.
Proof.
  destruct (tavily_search_answer 47%N None demo_search demo_get demo_markdownify
              demo_summarizer demo_uid demo_today (lit "Y") parent_state
              (lit "call_3") 1 (lit "general") (Some [result_a; result_b])
              demo_processed eq_refl eq_refl)
    as (files' & text & Hcmd & Hcount & Hfiles & _).
  exists files', text. split; [exact Hcmd |]. split; [exact Hcount | exact Hfiles].
Defined.

